(** * jobtree-backend: a shallow embedding of [server.js]

    The Express application of [src/server.js] is embedded as a set of
    handlers written in a small state-and-exception monad.  The document
    store (the three mongoose models), the response object and the
    sources of time, randomness and object identifiers are explicit
    state; what the code calls outside the repository (bcrypt, the
    clock, the random source) is a record of functions, [library], that
    the handlers take as a parameter. *)

From Stdlib Require Import ZArith Lia List Ascii String DecimalString.
From Stdlib.Strings Require Import Byte.
From stdpp Require Import base option list strings gmap.

Local Open Scope string_scope.

(** ** JavaScript values of a parsed JSON body *)

(** The values a field of a JSON body can take, and [undefined] for a
    missing key.  Numbers are restricted to integers.  Of the objects,
    [JDoc c s] is one whose own [_id] is the non-empty string
    [String c s]: these are the objects that the String cast of mongoose
    accepts.  Arrays and the other objects, which that cast rejects, are
    not part of the model. *)
Inductive jsval : Type :=
| JUndefined
| JNull
| JBool (b : bool)
| JNum (n : Z)
| JStr (s : string)
| JDoc (c : ascii) (s : string).

(** [ToBoolean] *)
Definition truthy (v : jsval) : bool :=
  match v with
  | JUndefined | JNull => false
  | JBool b => b
  | JNum n => negb (n =? 0)%Z
  | JStr s => negb (String.eqb s "")
  | JDoc _ _ => true
  end.

(** [a || b] *)
Definition js_or (a b : jsval) : jsval := if truthy a then a else b.

(** [v !== s] for a string [s] *)
Definition strict_neq_str (v : jsval) (s : string) : bool :=
  match v with
  | JStr s' => negb (String.eqb s' s)
  | _ => true
  end.

(** [req.body.k]: a missing key reads as [undefined]. *)
Definition field (body : gmap string jsval) (k : string) : jsval :=
  default JUndefined (body !! k).

(** ** [crypto.randomBytes(n).toString("hex")] *)

Definition hex_digit (n : N) : ascii :=
  match n with
  | 0 => "0" | 1 => "1" | 2 => "2" | 3 => "3" | 4 => "4" | 5 => "5"
  | 6 => "6" | 7 => "7" | 8 => "8" | 9 => "9" | 10 => "a" | 11 => "b"
  | 12 => "c" | 13 => "d" | 14 => "e" | _ => "f"
  end%N%char.

Definition is_hex (c : ascii) : bool :=
  let n := N_of_ascii c in
  ((48 <=? n) && (n <=? 57) || (97 <=? n) && (n <=? 102))%N.

Definition byte_hex (b : byte) : string :=
  String (hex_digit (Byte.to_N b / 16))
    (String (hex_digit (Byte.to_N b mod 16)) EmptyString).

Fixpoint toHex (bs : list byte) : string :=
  match bs with
  | [] => EmptyString
  | b :: rest => byte_hex b ++ toHex rest
  end.

Fixpoint string_forallb (p : ascii -> bool) (s : string) : bool :=
  match s with
  | EmptyString => true
  | String c s' => p c && string_forallb p s'
  end.

(** ** The email validator of the User schema

    [/^[^\s@]+@[^\s@]+\.[^\s@]+$/.test(v)], run by a matcher on regular
    expressions with Brzozowski derivatives.  Characters are code units
    below 256, so [\s] is the ASCII white space and U+00A0. *)

Inductive regex : Type :=
| Void
| Eps
| Class (p : ascii -> bool)
| Seq (r1 r2 : regex)
| Alt (r1 r2 : regex)
| Star (r : regex).

Definition Plus (r : regex) : regex := Seq r (Star r).

Fixpoint nullable (r : regex) : bool :=
  match r with
  | Void => false
  | Eps => true
  | Class _ => false
  | Seq r1 r2 => nullable r1 && nullable r2
  | Alt r1 r2 => nullable r1 || nullable r2
  | Star _ => true
  end.

Fixpoint deriv (c : ascii) (r : regex) : regex :=
  match r with
  | Void => Void
  | Eps => Void
  | Class p => if p c then Eps else Void
  | Seq r1 r2 =>
      if nullable r1 then Alt (Seq (deriv c r1) r2) (deriv c r2)
      else Seq (deriv c r1) r2
  | Alt r1 r2 => Alt (deriv c r1) (deriv c r2)
  | Star r1 => Seq (deriv c r1) (Star r1)
  end.

Fixpoint regex_test (r : regex) (s : string) : bool :=
  match s with
  | EmptyString => nullable r
  | String c s' => regex_test (deriv c r) s'
  end.

Definition is_space (c : ascii) : bool :=
  let n := N_of_ascii c in
  ((9 <=? n) && (n <=? 13) || (n =? 32) || (n =? 160))%N.

Definition not_space_at (c : ascii) : bool :=
  negb (is_space c) && negb (Ascii.eqb c "@").

Definition email_regex : regex :=
  Seq (Plus (Class not_space_at))
    (Seq (Class (Ascii.eqb "@"))
       (Seq (Plus (Class not_space_at))
          (Seq (Class (Ascii.eqb "."))
             (Plus (Class not_space_at))))).

Definition email_validator (v : string) : bool := regex_test email_regex v.

(** ** Schema types *)

(** The cast of a [String] path.  A nullish value leaves the path unset,
    which reads as the empty string here: a [required] validator rejects
    both in the same way.  A number is printed in decimal, which is how
    JavaScript prints an integer of at most [2^53] in absolute value.
    An object with a string [_id] is cast to that string. *)
Definition castString (v : jsval) : string :=
  match v with
  | JUndefined | JNull => ""
  | JBool true => "true"
  | JBool false => "false"
  | JNum n => NilZero.string_of_int (Z.to_int n)
  | JStr s => s
  | JDoc c s => String c s
  end.

(** An [ObjectId] is kept as the text that [toHexString] prints: 24
    hexadecimal digits in lower case. *)
Definition ObjectId : Type := string.

Definition canonical (id : string) : bool :=
  Nat.eqb (String.length id) 24 && string_forallb is_hex id.

Definition is_hex_digit (c : ascii) : bool :=
  let n := N_of_ascii c in
  (is_hex c || (65 <=? n) && (n <=? 70))%N.

Definition lower_hex (c : ascii) : ascii :=
  let n := N_of_ascii c in
  if ((65 <=? n) && (n <=? 70))%N then ascii_of_N (n + 32) else c.

Fixpoint string_map (f : ascii -> ascii) (s : string) : string :=
  match s with
  | EmptyString => EmptyString
  | String c s' => String (f c) (string_map f s')
  end.

(** The cast of the value of an [_id] filter: a string of 24 hexadecimal
    digits, of either case, is the id that it spells; any other string
    is a [CastError].  (Drivers before bson 5 also took a string of 12
    characters for the 12 bytes of an id; the cast is that of the later
    ones.) *)
Definition castObjectId (v : string) : option ObjectId :=
  if Nat.eqb (String.length v) 24 && string_forallb is_hex_digit v
  then Some (string_map lower_hex v)
  else None.

(** Milliseconds since the epoch. *)
Definition Date : Type := Z.

Module User.
Record t : Type := mk {
  _id : ObjectId;
  name : string;
  email : string;
  password : string;
  accessToken : string;
}.
End User.

Module Posting.
Record t : Type := mk {
  _id : ObjectId;
  jobTitle : string;
  company : string;
  stage : string;
  createdAt : Date;
  userName : string;
  lastStageChange : Date;
}.

Definition stage_enum : list string :=
  ["applied"; "interview"; "offer"; "rejected"].

Definition stage_default : string := "applied".
End Posting.

Module Contact.
(** [notes] is [None] when the stored value is [null]. *)
Record t : Type := mk {
  _id : ObjectId;
  name : string;
  company : string;
  notes : option string;
  userName : string;
}.
End Contact.

Definition str_in (s : string) (l : list string) : bool :=
  existsb (String.eqb s) l.

(** ** Requests, responses and the state of the server *)

(** What an awaited call can reject with. *)
Inductive exn : Type :=
| ValidationError (path : string)
| CastError (path : string)
| DuplicateKey (path : string)
| IllegalArguments
| DocumentNotFound
| TypeError
| HeadersSent.

(** The bodies handed to [res.send] and [res.json]. *)
Inductive payload : Type :=
| PUser (u : User.t)
| PPosting (p : Posting.t)
| PPostings (ps : list Posting.t)
| PContact (c : Contact.t)
| PContacts (cs : list Contact.t)
| PError (error : string)
| PCaught (error : exn)
| PLogin (userName accessToken : string)
| PNotFound
| PSuccess
| PText (text : string).

(** [res]: the status code set so far and what went out, if anything. *)
Record response : Type := mkResponse {
  statusCode : Z;
  sent : option (Z * payload);
}.

Definition fresh_response : response :=
  {| statusCode := 200; sent := None |}.

Inductive user_query : Type :=
| ByName (name : string)
| ByAccessToken (token : option string).

(** Calls that leave the handler: the store and bcrypt. *)
Inductive event : Type :=
| UserFindOne (q : user_query)
| UserSave (u : User.t)
| CompareSync (s : jsval) (hash : string)
| PostingFind (userName : string)
| PostingFindOne (id : string) (userName : string)
| PostingFindOneAndDelete (id : string) (userName : string)
| PostingSave (p : Posting.t)
| ContactFind (userName : string)
| ContactFindOne (id : string) (userName : string)
| ContactFindOneAndDelete (id : string) (userName : string)
| ContactSave (c : Contact.t).


Record state : Type := mkState {
  users : list User.t;
  postings : list Posting.t;
  contacts : list Contact.t;
  ticks : nat;
  drawn : nat;
  minted : nat;
  res : response;
  trace : list event;
}.

(** [params_id] is the text of the [:id] segment of the path. *)
Record request : Type := mkRequest {
  params_id : string;
  params_userName : string;
  authorization : option string;
  body : gmap string jsval;
  user : option User.t;
}.

(** Code outside the repository: bcrypt, the clock, the random source,
    the bytes of the object ids that the driver generates, and the
    treatment by the store of a filter whose value is [undefined]:
    [undefined_matches_all] is [true] for a store on which
    [findOne({ k: undefined })] matches as [findOne({})] does, which is
    what the documentation of mongoose says of it, and [false] for one
    on which it matches no document that has [k].  [None] is a thrown
    error. *)
Record library : Type := mkLibrary {
  hashSync : jsval -> list byte -> option string;
  compareSync : jsval -> string -> option bool;
  clock : nat -> Date;
  entropy : nat -> byte;
  objectIdBytes : nat -> list byte;
  undefined_matches_all : bool;
}.

(** The [k]-th id generated: twelve bytes, printed in hexadecimal. *)
Definition twelve (bs : list byte) : list byte :=
  firstn 12 (bs ++ repeat x00 12).

Definition objectId (lib : library) (k : nat) : ObjectId :=
  toHex (twelve (objectIdBytes lib k)).

(** ** The monad of handlers *)

Definition M (A : Type) : Type := state -> (exn + A) * state.

Definition ret {A} (a : A) : M A := fun s => (inr a, s).

Definition bind {A B} (m : M A) (k : A -> M B) : M B :=
  fun s =>
    match m s with
    | (inr a, s') => k a s'
    | (inl e, s') => (inl e, s')
    end.

Definition throw {A} (e : exn) : M A := fun s => (inl e, s).

Definition try_catch {A} (m : M A) (handler : exn -> M A) : M A :=
  fun s =>
    match m s with
    | (inr a, s') => (inr a, s')
    | (inl e, s') => handler e s'
    end.

Definition gets {A} (f : state -> A) : M A := fun s => (inr (f s), s).

Definition modify (f : state -> state) : M unit := fun s => (inr tt, f s).

Notation "'let*' x ':=' m 'in' k" := (bind m (fun x => k))
  (at level 10, x name, m at level 100, k at level 200).
Notation "m ';;' k" := (bind m (fun _ => k))
  (at level 100, k at level 200, right associativity).

Definition when (b : bool) (m : M unit) : M unit := if b then m else ret tt.

(** *** State updates *)

Definition set_users (l : list User.t) (s : state) : state :=
  mkState l (postings s) (contacts s) (ticks s) (drawn s) (minted s) (res s) (trace s).

Definition set_postings (l : list Posting.t) (s : state) : state :=
  mkState (users s) l (contacts s) (ticks s) (drawn s) (minted s) (res s) (trace s).

Definition set_contacts (l : list Contact.t) (s : state) : state :=
  mkState (users s) (postings s) l (ticks s) (drawn s) (minted s) (res s) (trace s).

Definition set_ticks (n : nat) (s : state) : state :=
  mkState (users s) (postings s) (contacts s) n (drawn s) (minted s) (res s) (trace s).

Definition set_drawn (n : nat) (s : state) : state :=
  mkState (users s) (postings s) (contacts s) (ticks s) n (minted s) (res s) (trace s).

Definition set_minted (n : nat) (s : state) : state :=
  mkState (users s) (postings s) (contacts s) (ticks s) (drawn s) n (res s) (trace s).

Definition set_res (r : response) (s : state) : state :=
  mkState (users s) (postings s) (contacts s) (ticks s) (drawn s) (minted s) r (trace s).

Definition set_trace (t : list event) (s : state) : state :=
  mkState (users s) (postings s) (contacts s) (ticks s) (drawn s) (minted s) (res s) t.

Definition begin_request (s : state) : state :=
  set_trace [] (set_res (mkResponse 200 None) s).

Definition emit (e : event) : M unit :=
  modify (fun s => set_trace (trace s ++ [e]) s).

(** *** The response object *)

(** [res.status(code)] *)
Definition res_status (code : Z) : M unit :=
  modify (fun s => set_res (mkResponse code (sent (res s))) s).

(** [res.send(body)] and [res.json(body)]: the first call writes the
    response; a later one throws, the headers being out already. *)
Definition res_send (b : payload) : M unit :=
  let* r := gets res in
  match sent r with
  | Some _ => throw HeadersSent
  | None => modify (set_res (mkResponse (statusCode r) (Some (statusCode r, b))))
  end.

Definition res_json : payload -> M unit := res_send.

(** *** Lists as collections *)

Fixpoint remove_first {A} (p : A -> bool) (l : list A) : list A :=
  match l with
  | [] => []
  | x :: l' => if p x then l' else x :: remove_first p l'
  end.

Fixpoint replace_first {A} (p : A -> bool) (y : A) (l : list A) : list A :=
  match l with
  | [] => []
  | x :: l' => if p x then y :: l' else x :: replace_first p y l'
  end.

Definition set_user (u : User.t) (req : request) : request :=
  mkRequest (params_id req) (params_userName req) (authorization req)
    (body req) (Some u).

(** Assignments to the paths of a loaded document; the value is cast. *)
Definition Posting_set_jobTitle (v : jsval) (p : Posting.t) : Posting.t :=
  Posting.mk (Posting._id p) (castString v) (Posting.company p)
    (Posting.stage p) (Posting.createdAt p) (Posting.userName p)
    (Posting.lastStageChange p).

Definition Posting_set_company (v : jsval) (p : Posting.t) : Posting.t :=
  Posting.mk (Posting._id p) (Posting.jobTitle p) (castString v)
    (Posting.stage p) (Posting.createdAt p) (Posting.userName p)
    (Posting.lastStageChange p).

Definition Posting_set_stage (v : jsval) (p : Posting.t) : Posting.t :=
  Posting.mk (Posting._id p) (Posting.jobTitle p) (Posting.company p)
    (castString v) (Posting.createdAt p) (Posting.userName p)
    (Posting.lastStageChange p).

Definition Posting_set_lastStageChange (d : Date) (p : Posting.t) : Posting.t :=
  Posting.mk (Posting._id p) (Posting.jobTitle p) (Posting.company p)
    (Posting.stage p) (Posting.createdAt p) (Posting.userName p) d.

Definition Contact_set_name (v : jsval) (c : Contact.t) : Contact.t :=
  Contact.mk (Contact._id c) (castString v) (Contact.company c)
    (Contact.notes c) (Contact.userName c).

Definition Contact_set_company (v : jsval) (c : Contact.t) : Contact.t :=
  Contact.mk (Contact._id c) (Contact.name c) (castString v)
    (Contact.notes c) (Contact.userName c).

(** A nullish value is stored as [null]. *)
Definition castNullable (v : jsval) : option string :=
  match v with
  | JUndefined | JNull => None
  | _ => Some (castString v)
  end.

Definition Contact_set_notes (v : jsval) (c : Contact.t) : Contact.t :=
  Contact.mk (Contact._id c) (Contact.name c) (Contact.company c)
    (castNullable v) (Contact.userName c).

(** Reading a nullable path. *)
Definition js_of_nullable (o : option string) : jsval :=
  match o with
  | Some s => JStr s
  | None => JNull
  end.

Definition user_name_is (n : string) (u : User.t) : bool :=
  String.eqb (User.name u) n.

Definition user_email_is (e : string) (u : User.t) : bool :=
  String.eqb (User.email u) e.

Definition posting_id_is (id : ObjectId) (p : Posting.t) : bool :=
  String.eqb (Posting._id p) id.

Definition posting_owner_is (n : string) (p : Posting.t) : bool :=
  String.eqb (Posting.userName p) n.

Definition posting_matches (id : ObjectId) (n : string) (p : Posting.t) : bool :=
  posting_id_is id p && posting_owner_is n p.

Definition contact_id_is (id : ObjectId) (c : Contact.t) : bool :=
  String.eqb (Contact._id c) id.

Definition contact_owner_is (n : string) (c : Contact.t) : bool :=
  String.eqb (Contact.userName c) n.

Definition contact_matches (id : ObjectId) (n : string) (c : Contact.t) : bool :=
  contact_id_is id c && contact_owner_is n c.

(** Validators.  [save] runs those of every path, of a new document and
    of a loaded one alike. *)
Definition required (path value : string) : option exn :=
  if String.eqb value "" then Some (ValidationError path) else None.

Definition one_of (path value : string) (allowed : list string) : option exn :=
  if str_in value allowed then None else Some (ValidationError path).

Fixpoint first_error (checks : list (option exn)) : option exn :=
  match checks with
  | [] => None
  | Some e :: _ => Some e
  | None :: rest => first_error rest
  end.

(** User: three [required] paths and the validator of [email]. *)
Definition User_validate (u : User.t) : option exn :=
  first_error
    [ required "name" (User.name u);
      required "email" (User.email u);
      (if email_validator (User.email u) then None
       else Some (ValidationError "email"));
      required "password" (User.password u) ].

(** Posting: the schema spells its option [require], which mongoose does
    not know, so no path is required; [stage] has an [enum]. *)
Definition Posting_validate (p : Posting.t) : option exn :=
  one_of "stage" (Posting.stage p) Posting.stage_enum.

(** Contact: [name], [company] and [userName] are [required]. *)
Definition Contact_validate (c : Contact.t) : option exn :=
  first_error
    [ required "name" (Contact.name c);
      required "company" (Contact.company c);
      required "userName" (Contact.userName c) ].

Definition raise_if (o : option exn) : M unit :=
  match o with
  | Some e => throw e
  | None => ret tt
  end.

Inductive route : Type :=
| POST_users
| POST_users_userName
| POST_postings
| GET_postings_user
| PUT_postings_id
| GET_postings_id
| DELETE_postings_id
| GET_contacts
| POST_contacts
| PUT_contacts_id
| DELETE_contacts_id
| GET_root.

(** The routes of the Posting and Contact sections. *)
Definition resource_route (r : route) : bool :=
  match r with
  | POST_users | POST_users_userName | GET_root => false
  | _ => true
  end.

(** ** The application *)

Section Server.

Variable lib : library.

(** [Date.now()] and [new Date()] *)
Definition Date_now : M Date :=
  let* t := gets ticks in
  modify (set_ticks (S t)) ;;
  ret (clock lib t).

(** [crypto.randomBytes(n)] *)
Definition randomBytes (n : nat) : M (list byte) :=
  let* d := gets drawn in
  modify (set_drawn (d + n)) ;;
  ret (List.map (entropy lib) (seq d n)).

Definition new_ObjectId : M ObjectId :=
  let* k := gets minted in
  modify (set_minted (S k)) ;;
  ret (objectId lib k).

(** [bcrypt.hashSync(s)], with a salt of 16 random bytes *)
Definition bcrypt_hashSync (s : jsval) : M string :=
  let* salt := randomBytes 16 in
  match hashSync lib s salt with
  | Some hash => ret hash
  | None => throw IllegalArguments
  end.

(** [bcrypt.compareSync(s, hash)] *)
Definition bcrypt_compareSync (s : jsval) (hash : string) : M bool :=
  emit (CompareSync s hash) ;;
  match compareSync lib s hash with
  | Some b => ret b
  | None => throw IllegalArguments
  end.

(** *** The User model *)

Definition user_matches (q : user_query) (u : User.t) : bool :=
  match q with
  | ByName n => user_name_is n u
  | ByAccessToken (Some token) => String.eqb (User.accessToken u) token
  | ByAccessToken None => undefined_matches_all lib
  end.

Definition User_findOne (q : user_query) : M (option User.t) :=
  emit (UserFindOne q) ;;
  let* us := gets users in
  ret (List.find (user_matches q) us).

(** [new User({ name, password, email })]: the default of [accessToken]
    is [crypto.randomBytes(128).toString("hex")]. *)
Definition User_new (name : jsval) (password : string) (email : jsval) : M User.t :=
  let* id := new_ObjectId in
  let* bytes := randomBytes 128 in
  ret (User.mk id (castString name) (castString email) password (toHex bytes)).

(** [user.save()] of a new document: validation, then the insertion
    under the unique indexes of [name] and [email]. *)
Definition User_save (u : User.t) : M unit :=
  emit (UserSave u) ;;
  raise_if (User_validate u) ;;
  let* us := gets users in
  if existsb (user_name_is (User.name u)) us then throw (DuplicateKey "name")
  else if existsb (user_email_is (User.email u)) us then throw (DuplicateKey "email")
  else modify (set_users (us ++ [u])).

(** *** The Posting model *)

Definition Posting_find (userName : string) : M (list Posting.t) :=
  emit (PostingFind userName) ;;
  let* ps := gets postings in
  ret (List.filter (posting_owner_is userName) ps).

(** [Posting.findOne({ _id: id, userName })]: the query rejects with a
    [CastError] when [id] is not the text of an ObjectId. *)
Definition Posting_findOne (id : string) (userName : string) : M (option Posting.t) :=
  emit (PostingFindOne id userName) ;;
  match castObjectId id with
  | Some oid =>
      let* ps := gets postings in
      ret (List.find (posting_matches oid userName) ps)
  | None => throw (CastError "_id")
  end.

Definition Posting_findOneAndDelete (id : string) (userName : string) : M (option Posting.t) :=
  emit (PostingFindOneAndDelete id userName) ;;
  match castObjectId id with
  | Some oid =>
      let* ps := gets postings in
      modify (set_postings (remove_first (posting_matches oid userName) ps)) ;;
      ret (List.find (posting_matches oid userName) ps)
  | None => throw (CastError "_id")
  end.

(** [new Posting({ jobTitle, company, userName })]: [stage], [createdAt]
    and [lastStageChange] take their defaults. *)
Definition Posting_new (jobTitle company : jsval) (userName : string) : M Posting.t :=
  let* id := new_ObjectId in
  let* createdAt := Date_now in
  let* lastStageChange := Date_now in
  ret (Posting.mk id (castString jobTitle) (castString company)
         Posting.stage_default createdAt userName lastStageChange).

(** [posting.save()]: the document is validated, then written.  The
    flag that mongoose keeps on the document, [isNew], is an argument: a
    new document is inserted, a loaded one replaces the stored document
    of the same [_id]. *)
Definition Posting_save (isNew : bool) (p : Posting.t) : M unit :=
  emit (PostingSave p) ;;
  raise_if (Posting_validate p) ;;
  let* ps := gets postings in
  if isNew then
    if existsb (posting_id_is (Posting._id p)) ps then throw (DuplicateKey "_id")
    else modify (set_postings (ps ++ [p]))
  else
    if existsb (posting_id_is (Posting._id p)) ps
    then modify (set_postings (replace_first (posting_id_is (Posting._id p)) p ps))
    else throw DocumentNotFound.

(** *** The Contact model *)

Definition Contact_find (userName : string) : M (list Contact.t) :=
  emit (ContactFind userName) ;;
  let* cs := gets contacts in
  ret (List.filter (contact_owner_is userName) cs).

Definition Contact_findOne (id : string) (userName : string) : M (option Contact.t) :=
  emit (ContactFindOne id userName) ;;
  match castObjectId id with
  | Some oid =>
      let* cs := gets contacts in
      ret (List.find (contact_matches oid userName) cs)
  | None => throw (CastError "_id")
  end.

Definition Contact_findOneAndDelete (id : string) (userName : string) : M (option Contact.t) :=
  emit (ContactFindOneAndDelete id userName) ;;
  match castObjectId id with
  | Some oid =>
      let* cs := gets contacts in
      modify (set_contacts (remove_first (contact_matches oid userName) cs)) ;;
      ret (List.find (contact_matches oid userName) cs)
  | None => throw (CastError "_id")
  end.

(** [new Contact({ name, company, notes, userName })]: [notes] defaults
    to the empty string when it is [undefined]. *)
Definition Contact_new (name company notes : jsval) (userName : string) : M Contact.t :=
  let* id := new_ObjectId in
  ret (Contact.mk id (castString name) (castString company)
         (match notes with JUndefined => Some "" | _ => castNullable notes end)
         userName).

Definition Contact_save (isNew : bool) (c : Contact.t) : M unit :=
  emit (ContactSave c) ;;
  raise_if (Contact_validate c) ;;
  let* cs := gets contacts in
  if isNew then
    if existsb (contact_id_is (Contact._id c)) cs then throw (DuplicateKey "_id")
    else modify (set_contacts (cs ++ [c]))
  else
    if existsb (contact_id_is (Contact._id c)) cs
    then modify (set_contacts (replace_first (contact_id_is (Contact._id c)) c cs))
    else throw DocumentNotFound.

(** [req.user], read where the handler writes [req.user.name]. *)
Definition req_user (req : request) : M User.t :=
  match user req with
  | Some u => ret u
  | None => throw TypeError
  end.

(** *** Handlers, in the order of [server.js] *)

(** [app.post("/users", ...)] *)
Definition users_create (req : request) : M unit :=
  let userName := field (body req) "user" in
  let email := field (body req) "email" in
  let password := field (body req) "password" in
  if negb (truthy userName) || negb (truthy email) || negb (truthy password) then
    res_status 400 ;;
    res_send (PError "Could not create user. User, email or password missing")
  else
    try_catch
      (let* hash := bcrypt_hashSync password in
       let* user := User_new userName hash email in
       User_save user ;;
       res_status 201 ;;
       res_send (PUser user))
      (fun error =>
         res_status 400 ;;
         res_send (PCaught error)).

(** [app.post("/users/:userName", ...)] *)
Definition users_login (req : request) : M unit :=
  let userName := params_userName req in
  let passEncrypted := field (body req) "password" in
  when (negb (truthy passEncrypted))
    (res_json (PError "password missing in the body of request")) ;;
  let* user := User_findOne (ByName userName) in
  let* matched :=
    match user with
    | Some u => bcrypt_compareSync passEncrypted (User.password u)
    | None => ret false
    end in
  match user, matched with
  | Some u, true => res_json (PLogin (User.name u) (User.accessToken u))
  | _, _ =>
      res_status 401 ;;
      res_json PNotFound
  end.

(** [authenticateUser]; [next] is the rest of the stack of the route. *)
Definition authenticateUser (req : request) (next : request -> M unit) : M unit :=
  let* user := User_findOne (ByAccessToken (authorization req)) in
  match user with
  | Some u => next (set_user u req)
  | None =>
      res_status 401 ;;
      res_json (PError "User logged out")
  end.

(** [app.post("/postings", ...)] *)
Definition postings_create (req : request) : M unit :=
  let jobTitle := field (body req) "jobTitle" in
  let company := field (body req) "company" in
  if negb (truthy jobTitle) || negb (truthy company) then
    res_status 400 ;;
    res_send (PError "Could not create posting. Job title or company missing")
  else
    let* u := req_user req in
    let* posting := Posting_new jobTitle company (User.name u) in
    Posting_save true posting ;;
    res_status 201 ;;
    res_send (PPosting posting).

(** [app.get("/postings/user", ...)] *)
Definition postings_list (req : request) : M unit :=
  let* u := req_user req in
  let* postings := Posting_find (User.name u) in
  res_send (PPostings postings).

(** The assignments of the update handler between [findOne] and [save]. *)
Definition postings_merge (jobTitle company stage : jsval) (posting : Posting.t)
  : M Posting.t :=
  let posting :=
    Posting_set_jobTitle (js_or jobTitle (JStr (Posting.jobTitle posting))) posting in
  let posting :=
    Posting_set_company (js_or company (JStr (Posting.company posting))) posting in
  if truthy stage && strict_neq_str stage (Posting.stage posting) then
    let posting := Posting_set_stage stage posting in
    let* now := Date_now in
    ret (Posting_set_lastStageChange now posting)
  else
    ret (Posting_set_stage (js_or stage (JStr (Posting.stage posting))) posting).

(** [app.put("/postings/:id", ...)] *)
Definition postings_update (req : request) : M unit :=
  let postingId := params_id req in
  let jobTitle := field (body req) "jobTitle" in
  let company := field (body req) "company" in
  let stage := field (body req) "stage" in
  let* u := req_user req in
  let* found := Posting_findOne postingId (User.name u) in
  match found with
  | None =>
      res_status 404 ;;
      res_send (PError "Posting not found or user not authorized")
  | Some posting =>
      let* posting := postings_merge jobTitle company stage posting in
      Posting_save false posting ;;
      res_send (PPosting posting)
  end.

(** [app.get("/postings/:id", ...)] *)
Definition postings_get (req : request) : M unit :=
  let postingId := params_id req in
  let* u := req_user req in
  let* found := Posting_findOne postingId (User.name u) in
  match found with
  | None =>
      res_status 404 ;;
      res_send (PError "Posting not found or user not authorized")
  | Some posting => res_send (PPosting posting)
  end.

(** [app.delete("/postings/:id", ...)] *)
Definition postings_delete (req : request) : M unit :=
  let postingId := params_id req in
  let* u := req_user req in
  let* found := Posting_findOneAndDelete postingId (User.name u) in
  match found with
  | None =>
      res_status 404 ;;
      res_send (PError "Posting not found or user not authorized")
  | Some _ => res_send PSuccess
  end.

(** [app.get("/contacts", ...)] *)
Definition contacts_list (req : request) : M unit :=
  let* u := req_user req in
  let* contacts := Contact_find (User.name u) in
  res_send (PContacts contacts).

(** [app.post("/contacts", ...)] *)
Definition contacts_create (req : request) : M unit :=
  let name := field (body req) "name" in
  let company := field (body req) "company" in
  let notes := field (body req) "notes" in
  if negb (truthy name) || negb (truthy company) then
    res_status 400 ;;
    res_send (PError "Name and company are required")
  else
    let* u := req_user req in
    let* contact := Contact_new name company notes (User.name u) in
    Contact_save true contact ;;
    res_status 201 ;;
    res_send (PContact contact).

(** The assignments of the update handler between [findOne] and [save]. *)
Definition contacts_merge (name company notes : jsval) (contact : Contact.t)
  : Contact.t :=
  let contact :=
    Contact_set_name (js_or name (JStr (Contact.name contact))) contact in
  let contact :=
    Contact_set_company (js_or company (JStr (Contact.company contact))) contact in
  Contact_set_notes (js_or notes (js_of_nullable (Contact.notes contact))) contact.

(** [app.put("/contacts/:id", ...)] *)
Definition contacts_update (req : request) : M unit :=
  let contactId := params_id req in
  let name := field (body req) "name" in
  let company := field (body req) "company" in
  let notes := field (body req) "notes" in
  let* u := req_user req in
  let* found := Contact_findOne contactId (User.name u) in
  match found with
  | None =>
      res_status 404 ;;
      res_send (PError "Contact not found or user not authorized")
  | Some contact =>
      let contact := contacts_merge name company notes contact in
      Contact_save false contact ;;
      res_send (PContact contact)
  end.

(** [app.delete("/contacts/:id", ...)] *)
Definition contacts_delete (req : request) : M unit :=
  let contactId := params_id req in
  let* u := req_user req in
  let* found := Contact_findOneAndDelete contactId (User.name u) in
  match found with
  | None =>
      res_status 404 ;;
      res_send (PError "Contact not found or user not authorized")
  | Some _ => res_send PSuccess
  end.

(** [app.get("/", ...)] *)
Definition root (req : request) : M unit :=
  res_send (PText "Hello Technigo!").

(** The handler registered last on a route. *)
Definition handler (r : route) : request -> M unit :=
  match r with
  | POST_users => users_create
  | POST_users_userName => users_login
  | POST_postings => postings_create
  | GET_postings_user => postings_list
  | PUT_postings_id => postings_update
  | GET_postings_id => postings_get
  | DELETE_postings_id => postings_delete
  | GET_contacts => contacts_list
  | POST_contacts => contacts_create
  | PUT_contacts_id => contacts_update
  | DELETE_contacts_id => contacts_delete
  | GET_root => root
  end.

(** The stack of each route, as the calls of [app.post], [app.get],
    [app.put] and [app.delete] build it. *)
Definition app (r : route) (req : request) : M unit :=
  match r with
  | POST_users => users_create req
  | POST_users_userName => users_login req
  | POST_postings => authenticateUser req postings_create
  | GET_postings_user => authenticateUser req postings_list
  | PUT_postings_id => authenticateUser req postings_update
  | GET_postings_id => authenticateUser req postings_get
  | DELETE_postings_id => authenticateUser req postings_delete
  | GET_contacts => authenticateUser req contacts_list
  | POST_contacts => authenticateUser req contacts_create
  | PUT_contacts_id => authenticateUser req contacts_update
  | DELETE_contacts_id => authenticateUser req contacts_delete
  | GET_root => root req
  end.

(** One request, served on a response object of its own, with the calls
    it makes recorded from the start.  An error that escapes the handler
    is dropped; what was sent before stays sent. *)
Definition serve (r : route) (req : request) (s : state) : state :=
  snd (app r req (begin_request s)).

Definition serve_all (rs : list (route * request)) (s : state) : state :=
  fold_left (fun s rr => serve (fst rr) (snd rr) s) rs s.

(** What the client receives. *)
Definition reply (s : state) : option (Z * payload) := sent (res s).

End Server.

(** ** Notions used by the statements *)

(** The user that [authenticateUser] resolves for a request. *)
Definition authenticated (lib : library) (req : request) (s : state) : option User.t :=
  List.find (user_matches lib (ByAccessToken (authorization req))) (users s).

Definition with_body (b : gmap string jsval) (req : request) : request :=
  mkRequest (params_id req) (params_userName req) (authorization req) b (user req).

(** The state in which the handler of a protected route starts. *)
Definition after_lookup (req : request) (s : state) : state :=
  set_trace [UserFindOne (ByAccessToken (authorization req))] (begin_request s).



(** The routes that address one document by [:id]. *)
Definition by_id_route (r : route) : bool :=
  match r with
  | PUT_postings_id | GET_postings_id | DELETE_postings_id
  | PUT_contacts_id | DELETE_contacts_id => true
  | _ => false
  end.

Definition on_contacts (r : route) : bool :=
  match r with
  | GET_contacts | POST_contacts | PUT_contacts_id | DELETE_contacts_id => true
  | _ => false
  end.

(** Does the collection of the route hold a document with the id of the
    request whose [userName] is [n]? *)
Definition visible (r : route) (req : request) (n : string) (s : state) : bool :=
  if on_contacts r then existsb (contact_matches (params_id req) n) (contacts s)
  else existsb (posting_matches (params_id req) n) (postings s).

Definition not_found (r : route) : Z * payload :=
  (404%Z,
   PError (if on_contacts r then "Contact not found or user not authorized"
           else "Posting not found or user not authorized")).

(** Is there a document with the id of the request at all? *)
Definition id_exists (r : route) (req : request) (s : state) : bool :=
  if on_contacts r then existsb (contact_id_is (params_id req)) (contacts s)
  else existsb (posting_id_is (params_id req)) (postings s).

(** The state once [res.status(code)] and [res.send(b)] have run. *)
Definition respond (code : Z) (b : payload) (s : state) : state :=
  set_res (mkResponse code (Some (code, b))) s.

(** The update rule in the words of the specification: a truthy field
    of the request replaces the stored value, any other leaves it. *)
Definition overwrite (v : jsval) (old : string) : string :=
  if truthy v then castString v else old.

Definition overwrite_nullable (v : jsval) (old : option string) : option string :=
  if truthy v then Some (castString v) else old.



(** The request asks for a stage other than the stored one. *)
Definition stage_changes (stage : jsval) (p : Posting.t) : bool :=
  truthy stage && strict_neq_str stage (Posting.stage p).

(** The posting and the contact that an update should produce, in the
    words of the specification; the handlers are compared with these. *)
Definition spec_merge_posting (req : request) (now : Date) (p : Posting.t)
  : Posting.t :=
  Posting.mk (Posting._id p)
    (overwrite (field (body req) "jobTitle") (Posting.jobTitle p))
    (overwrite (field (body req) "company") (Posting.company p))
    (overwrite (field (body req) "stage") (Posting.stage p))
    (Posting.createdAt p)
    (Posting.userName p)
    (if stage_changes (field (body req) "stage") p then now
     else Posting.lastStageChange p).

Definition spec_merge_contact (req : request) (c : Contact.t) : Contact.t :=
  Contact.mk (Contact._id c)
    (overwrite (field (body req) "name") (Contact.name c))
    (overwrite (field (body req) "company") (Contact.company c))
    (overwrite_nullable (field (body req) "notes") (Contact.notes c))
    (Contact.userName c).

(** The [_id] index of a collection: its ids are ObjectIds, and no two
    documents share one. *)
Definition ids_of {A} (key : A -> ObjectId) (l : list A) : Prop :=
  NoDup (List.map key l) /\ Forall (fun x => canonical (key x) = true) l.

Definition ids_unique (s : state) : Prop :=
  ids_of Posting._id (postings s) /\
  ids_of Contact._id (contacts s).

Definition foreign_postings (n : string) (s : state) : list Posting.t :=
  List.filter (fun p => negb (posting_owner_is n p)) (postings s).

Definition foreign_contacts (n : string) (s : state) : list Contact.t :=
  List.filter (fun c => negb (contact_owner_is n c)) (contacts s).

Definition is_compare (e : event) : bool :=
  match e with
  | CompareSync _ _ => true
  | _ => false
  end.

Definition status_of (r : option (Z * payload)) : option Z := fst <$> r.

(** A collection keyed by a string: the documents with a given key, and
    those among them that pass a further test. *)
Definition has_key {A} (key : A -> string) (id : string) (x : A) : bool :=
  String.eqb (key x) id.

Definition has_key_and {A} (key : A -> string) (own : A -> bool) (id : string)
    (x : A) : bool :=
  has_key key id x && own x.

(** The replies to a sequence of requests, in order. *)
Fixpoint replies (lib : library) (rs : list (route * request)) (s : state)
  : list (option (Z * payload)) :=
  match rs with
  | [] => []
  | (r, req) :: rest =>
      let s' := serve lib r req s in
      reply s' :: replies lib rest s'
  end.

Definition replied_lastStageChange (r : option (Z * payload)) : option Date :=
  match r with
  | Some (_, PPosting p) => Some (Posting.lastStageChange p)
  | _ => None
  end.

(** ** A concrete library and concrete requests *)

Module Sample.

Fixpoint drop_chars (n : nat) (s : string) : string :=
  match n, s with
  | S n', String _ s' => drop_chars n' s'
  | _, _ => s
  end.

(** A stand-in for bcrypt: strings only, the salt kept in the hash. *)
Definition hashSync (s : jsval) (salt : list byte) : option string :=
  match s with
  | JStr pw => Some ("$2a$" ++ toHex (firstn 2 salt) ++ "$" ++ pw)
  | _ => None
  end.

Definition compareSync (s : jsval) (hash : string) : option bool :=
  match s with
  | JStr pw => Some (String.eqb (drop_chars 9 hash) pw)
  | _ => None
  end.

Definition clock (t : nat) : Date := (1700000000000 + Z.of_nat t)%Z.

Definition entropy (i : nat) : byte :=
  default x00 (Byte.of_N (N.of_nat (7 * i + 3) mod 256)).

Definition objectIdBytes (k : nat) : list byte :=
  [x65; xf0; xc0; xde; x00; x00; x00; x00; x00; x00; x00;
   default x00 (Byte.of_N (N.of_nat k mod 256))].

Definition lib : library :=
  mkLibrary hashSync compareSync clock entropy objectIdBytes false.

Definition empty : state := mkState [] [] [] 0 0 0 fresh_response [].

Definition request_of (id userName : string) (auth : option string)
    (fields : list (string * jsval)) : request :=
  mkRequest id userName auth (list_to_map fields) None.

Definition signup_alice : request :=
  request_of "" "" None
    [("user", JStr "alice"); ("email", JStr "a@x.com"); ("password", JStr "pw1")].

Definition signup_bob : request :=
  request_of "" "" None
    [("user", JStr "bob"); ("email", JStr "b@x.com"); ("password", JStr "pw2")].

(** The state after the two accounts were created. *)
Definition two_users : state :=
  serve lib POST_users signup_bob (serve lib POST_users signup_alice empty).

Definition token_of (n : string) (s : state) : option string :=
  User.accessToken <$> List.find (user_name_is n) (users s).

Definition alice_token : option string := token_of "alice" two_users.
Definition bob_token : option string := token_of "bob" two_users.

Definition alice_posts : request :=
  request_of "" "" alice_token
    [("jobTitle", JStr "Eng"); ("company", JStr "Acme");
     ("userName", JStr "bob")].

Definition alice_adds_contact : request :=
  request_of "" "" alice_token
    [("name", JStr "Kim"); ("company", JStr "Acme");
     ("userName", JStr "bob")].

(** Two accounts, one posting and one contact, both of alice. *)
Definition populated : state :=
  serve lib POST_contacts alice_adds_contact
    (serve lib POST_postings alice_posts two_users).

Definition posting_id : ObjectId := objectId lib 2.
Definition contact_id : ObjectId := objectId lib 3.

Definition login_alice : request :=
  request_of "" "alice" None [("password", JStr "pw1")].

Definition login_alice_wrong : request :=
  request_of "" "alice" None [("password", JStr "nope")].

Definition login_nobody : request :=
  request_of "" "nobody" None [("password", JStr "pw1")].

Definition login_nobody_no_password : request :=
  request_of "" "nobody" None [].

Definition login_alice_no_password : request :=
  request_of "" "alice" None [].

Definition nobody : User.t := User.mk "" "" "" "" "".

Definition alice : User.t :=
  default nobody (List.find (user_name_is "alice") (users two_users)).

Definition bob : User.t :=
  default nobody (List.find (user_name_is "bob") (users two_users)).

Definition the_posting : Posting.t :=
  default (Posting.mk "" "" "" "" 0%Z "" 0%Z) (head (postings populated)).

Definition the_contact : Contact.t :=
  default (Contact.mk "" "" "" None "") (head (contacts populated)).

Definition alice_moves_stage : request :=
  request_of posting_id "" alice_token [("stage", JStr "interview")].

Definition alice_renames_company : request :=
  request_of posting_id "" alice_token [("company", JStr "Initech")].

Definition alice_sets_bad_stage : request :=
  request_of posting_id "" alice_token [("stage", JStr "hired")].

Definition alice_edits_contact : request :=
  request_of contact_id "" alice_token [("notes", JStr "met at the fair")].

Definition alice_reads_posting : request :=
  request_of posting_id "" alice_token [].

Definition bob_reads_posting : request :=
  request_of posting_id "" bob_token [].

Definition bob_reads_missing : request :=
  request_of "ffffffffffffffffffffffff" "" bob_token [].

Definition bob_deletes_posting : request :=
  request_of posting_id "" bob_token [].


(** The scenario of the specification, from the empty store: sign up,
    log in, create a posting, move it to [interview] twice, delete
    it, read it. *)
Definition scenario : list (route * request) :=
  let id := objectId lib 1 in
  [(POST_users, signup_alice);
   (POST_users_userName, login_alice);
   (POST_postings,
    request_of "" "" alice_token
      [("jobTitle", JStr "Eng"); ("company", JStr "Acme")]);
   (PUT_postings_id, request_of id "" alice_token [("stage", JStr "interview")]);
   (PUT_postings_id, request_of id "" alice_token [("stage", JStr "interview")]);
   (DELETE_postings_id, request_of id "" alice_token []);
   (GET_postings_id, request_of id "" alice_token [])].

(** What happens between the creation of alice and a later login. *)
Definition meanwhile : list (route * request) :=
  [(POST_users, signup_bob); (POST_users_userName, login_alice);
   (POST_postings, alice_posts); (POST_users_userName, login_alice_wrong)].

End Sample.

(** ** Notions for the further properties *)

(** The strings a regular expression denotes. *)
Inductive Matches : regex -> string -> Prop :=
| MEps : Matches Eps EmptyString
| MClass (p : ascii -> bool) (c : ascii) :
    p c = true -> Matches (Class p) (String c EmptyString)
| MSeq (r1 r2 : regex) (s1 s2 : string) :
    Matches r1 s1 -> Matches r2 s2 -> Matches (Seq r1 r2) (s1 ++ s2)
| MAltL (r1 r2 : regex) (s : string) : Matches r1 s -> Matches (Alt r1 r2) s
| MAltR (r1 r2 : regex) (s : string) : Matches r2 s -> Matches (Alt r1 r2) s
| MStarNil (r : regex) : Matches (Star r) EmptyString
| MStarApp (r : regex) (s1 s2 : string) :
    Matches r s1 -> Matches (Star r) s2 -> Matches (Star r) (s1 ++ s2).

(** A non-empty run of characters that are neither white space nor [@]. *)
Definition plain (s : string) : Prop :=
  s <> EmptyString /\ string_forallb not_space_at s = true.

(** [local@domain.tld] *)
Definition email_shape (v : string) : Prop :=
  exists local domain tld,
    v = local ++ "@" ++ domain ++ "." ++ tld /\
    plain local /\ plain domain /\ plain tld.

(** The body fields that the handler of a route reads. *)
Definition reads (r : route) : list string :=
  match r with
  | POST_users => ["user"; "email"; "password"]
  | POST_users_userName => ["password"]
  | POST_postings => ["jobTitle"; "company"]
  | PUT_postings_id => ["jobTitle"; "company"; "stage"]
  | POST_contacts => ["name"; "company"; "notes"]
  | PUT_contacts_id => ["name"; "company"; "notes"]
  | GET_postings_user | GET_postings_id | DELETE_postings_id
  | GET_contacts | DELETE_contacts_id | GET_root => []
  end.

(** The routes whose handlers only read the store. *)
Definition read_only (r : route) : bool :=
  match r with
  | POST_users_userName | GET_postings_user | GET_postings_id
  | GET_contacts | GET_root => true
  | _ => false
  end.





(** The fields that a creation route requires, and its answer when one
    of them is missing. *)
Definition required_fields (r : route) : list string :=
  match r with
  | POST_users => ["user"; "email"; "password"]
  | POST_postings => ["jobTitle"; "company"]
  | POST_contacts => ["name"; "company"]
  | _ => []
  end.

Definition missing_message (r : route) : string :=
  match r with
  | POST_users => "Could not create user. User, email or password missing"
  | POST_postings => "Could not create posting. Job title or company missing"
  | _ => "Name and company are required"
  end.

(** What bcrypt promises: a password matches the hashes made of it. *)
Definition bcrypt_sound (lib : library) : Prop :=
  forall s salt hash,
    hashSync lib s salt = Some hash -> compareSync lib s hash = Some true.

(** The counters of the clock, the random source and the id generator. *)
Definition counters (s : state) : nat * nat * nat :=
  (ticks s, drawn s, minted s).

Definition with_id (id : string) (req : request) : request :=
  mkRequest id (params_userName req) (authorization req) (body req) (user req).

(** ** Further concrete requests *)

Module Cases.

Definition alice_posts_no_company : request :=
  Sample.request_of "" "" Sample.alice_token
    [("jobTitle", JStr "Eng"); ("company", JStr "")].

Definition signup_no_email : request :=
  Sample.request_of "" "" None
    [("user", JStr "carol"); ("password", JStr "pw3")].

Definition alice_on_contact : request :=
  Sample.request_of Sample.contact_id "" Sample.alice_token [].

Definition bob_lists : request :=
  Sample.request_of "" "" Sample.bob_token [].

(** The two accounts and the posting of alice, before her contact. *)
Definition with_posting : state :=
  serve Sample.lib POST_postings Sample.alice_posts Sample.two_users.

(** A stand-in for bcrypt that keeps no salt: the comparison accepts a
    password against every hash made of it. *)
Definition hashSync (s : jsval) (salt : list byte) : option string :=
  match s with
  | JStr pw => Some ("$2b$" ++ pw)
  | _ => None
  end.

Definition compareSync (s : jsval) (hash : string) : option bool :=
  match s with
  | JStr pw => Some (String.eqb hash ("$2b$" ++ pw))
  | _ => None
  end.

Definition lib : library :=
  mkLibrary hashSync compareSync Sample.clock Sample.entropy
    Sample.objectIdBytes false.

Definition alice : User.t :=
  default Sample.nobody
    (head (users (serve lib POST_users Sample.signup_alice Sample.empty))).

(** An id that is no ObjectId, and the id of the posting of alice
    spelled in upper case. *)
Definition alice_reads_malformed : request :=
  Sample.request_of "abc" "" Sample.alice_token [].

Definition alice_reads_upper : request :=
  Sample.request_of "65F0C0DE0000000000000002" "" Sample.alice_token [].



(** The stage [interview], sent as an object with that [_id]. *)
Definition alice_moves_stage_doc : request :=
  Sample.request_of Sample.posting_id "" Sample.alice_token
    [("stage", JDoc "i" "nterview")].

(** A password that is a number: bcrypt throws on it. *)
Definition login_alice_number : request :=
  Sample.request_of "" "alice" None [("password", JNum 123)].

Definition login_nobody_number : request :=
  Sample.request_of "" "nobody" None [("password", JNum 123)].



(** A request without the Authorization header, and a store that
    matches every document on a filter whose value is [undefined]. *)
Definition anonymous_posts : request :=
  Sample.request_of "" "" None
    [("jobTitle", JStr "Eng"); ("company", JStr "Acme")].


End Cases.

(** * Properties *)

(** ** The access token *)

Lemma string_length_app (s t : string) :
  String.length (s ++ t) = String.length s + String.length t.
Proof. induction s as [|c s IH]; simpl; [reflexivity | now rewrite IH]. Qed.

Lemma string_forallb_app (p : ascii -> bool) (s t : string) :
  string_forallb p (s ++ t) = string_forallb p s && string_forallb p t.
Proof.
  induction s as [|c s IH]; simpl; [reflexivity |].
  rewrite IH. now rewrite andb_assoc.
Qed.

Lemma hex_digit_is_hex (n : N) : is_hex (hex_digit n) = true.
Proof.
  destruct n as [|p]; [reflexivity |].
  do 4 (try destruct p as [p|p|]); reflexivity.
Qed.

Lemma length_toHex (bs : list byte) :
  String.length (toHex bs) = 2 * length bs.
Proof.
  induction bs as [|b bs IH]; [reflexivity |].
  change (toHex (b :: bs)) with (byte_hex b ++ toHex bs).
  rewrite string_length_app, IH. simpl. lia.
Qed.

Lemma toHex_is_hex (bs : list byte) : string_forallb is_hex (toHex bs) = true.
Proof.
  induction bs as [|b bs IH]; [reflexivity |].
  change (toHex (b :: bs)) with (byte_hex b ++ toHex bs).
  rewrite string_forallb_app, IH. unfold byte_hex. simpl.
  now rewrite !hex_digit_is_hex.
Qed.

(** ** Object ids *)

Lemma is_hex_lower (c : ascii) : is_hex c = true -> lower_hex c = c.
Proof.
  destruct c as [[] [] [] [] [] [] [] []]; vm_compute; intros H;
    try reflexivity; discriminate H.
Qed.

Lemma is_hex_is_digit (c : ascii) : is_hex c = true -> is_hex_digit c = true.
Proof. intros H. unfold is_hex_digit. now rewrite H. Qed.

Lemma lower_hex_is_hex (c : ascii) :
  is_hex_digit c = true -> is_hex (lower_hex c) = true.
Proof.
  destruct c as [[] [] [] [] [] [] [] []]; vm_compute; intros H;
    try reflexivity; discriminate H.
Qed.

Lemma string_map_lower_hex (s : string) :
  string_forallb is_hex s = true -> string_map lower_hex s = s.
Proof.
  induction s as [|c s IH]; [reflexivity |].
  cbn. intros H. apply andb_prop in H as [Hc Hs].
  now rewrite (is_hex_lower c Hc), IH.
Qed.

Lemma string_forallb_is_digit (s : string) :
  string_forallb is_hex s = true -> string_forallb is_hex_digit s = true.
Proof.
  induction s as [|c s IH]; [reflexivity |].
  cbn. intros H. apply andb_prop in H as [Hc Hs].
  now rewrite (is_hex_is_digit c Hc), IH.
Qed.

Lemma string_map_length (f : ascii -> ascii) (s : string) :
  String.length (string_map f s) = String.length s.
Proof. induction s as [|c s IH]; [reflexivity |]. cbn. now rewrite IH. Qed.

Lemma string_map_lower_is_hex (s : string) :
  string_forallb is_hex_digit s = true ->
  string_forallb is_hex (string_map lower_hex s) = true.
Proof.
  induction s as [|c s IH]; [reflexivity |].
  cbn. intros H. apply andb_prop in H as [Hc Hs].
  now rewrite (lower_hex_is_hex c Hc), IH.
Qed.

(** The text of an id is cast to itself. *)
Lemma castObjectId_canonical (id : string) :
  canonical id = true -> castObjectId id = Some id.
Proof.
  unfold canonical, castObjectId. intros H.
  apply andb_prop in H as [Hlen Hhex].
  now rewrite Hlen, (string_forallb_is_digit id Hhex), (string_map_lower_hex id Hhex).
Qed.

(** What the cast returns is the text of an id. *)
Lemma castObjectId_Some (v : string) (oid : ObjectId) :
  castObjectId v = Some oid -> canonical oid = true.
Proof.
  unfold castObjectId, canonical.
  destruct (Nat.eqb (String.length v) 24) eqn:Hlen; [| discriminate].
  destruct (string_forallb is_hex_digit v) eqn:Hhex; [| discriminate].
  cbn. intros [= <-].
  now rewrite string_map_length, Hlen, (string_map_lower_is_hex v Hhex).
Qed.

Lemma twelve_length (bs : list byte) : length (twelve bs) = 12.
Proof.
  unfold twelve. rewrite length_firstn, length_app, repeat_length. lia.
Qed.

(** A generated id is the text of an id. *)
Lemma objectId_canonical (lib : library) (k : nat) :
  canonical (objectId lib k) = true.
Proof.
  unfold canonical, objectId.
  now rewrite length_toHex, twelve_length, toHex_is_hex.
Qed.

Local Open Scope list_scope.

Section Properties.

Variable lib : library.

(** Symbolic runs of the handlers stop at these. *)
#[local] Arguments toHex : simpl never.
#[local] Arguments seq : simpl never.
#[local] Arguments List.map : simpl never.
#[local] Arguments castString : simpl never.
#[local] Arguments castNullable : simpl never.
#[local] Arguments truthy : simpl never.
#[local] Arguments field : simpl never.
#[local] Arguments String.eqb : simpl never.
#[local] Arguments email_validator : simpl never.
#[local] Arguments required : simpl never.
#[local] Arguments User_validate : simpl never.
#[local] Arguments Posting_validate : simpl never.
#[local] Arguments Contact_validate : simpl never.
#[local] Arguments castObjectId : simpl never.
#[local] Arguments canonical : simpl never.
#[local] Arguments objectId : simpl never.

Ltac run_handler :=
  unfold serve, app, handler, users_create, users_login, authenticateUser,
    postings_create, postings_list, postings_update, postings_get,
    postings_delete, contacts_list, contacts_create, contacts_update,
    contacts_delete, root, postings_merge, req_user,
    User_findOne, User_new, User_save, Posting_find, Posting_findOne,
    Posting_findOneAndDelete, Posting_new, Posting_save, Contact_find,
    Contact_findOne, Contact_findOneAndDelete, Contact_new, Contact_save,
    bcrypt_hashSync, bcrypt_compareSync, randomBytes, new_ObjectId, Date_now,
    res_json, res_send, res_status, raise_if, when, emit, try_catch,
    bind, ret, throw, gets, modify in *.

(** ** Authentication *)


Lemma authenticateUser_run (req : request) (next : request -> M unit) (s : state) :
  authenticateUser lib req next (begin_request s) =
  match authenticated lib req s with
  | Some u => next (set_user u req) (after_lookup req s)
  | None =>
      (inr tt, respond 401 (PError "User logged out") (after_lookup req s))
  end.
Proof.
  unfold authenticated. run_handler. cbn.
  destruct (List.find _ (users s)); reflexivity.
Qed.

Lemma app_resource_route (r : route) (req : request) (s : state) :
  resource_route r = true ->
  app lib r req s = authenticateUser lib req (handler lib r) s.
Proof. destruct r; intros H; try discriminate H; reflexivity. Qed.


(** ** Login *)

(** C7, with the comparison that throws set apart.  A login that
    supplies a password is answered 401 with the body
    [{ notFound: true }] when no user has the name, and with the very
    same reply when a user has it and the comparison of the password
    with the stored hash returns false; no stored user changes.  When a
    user has the name and the comparison throws, as bcrypt does on a
    password that is not a string, nothing is sent: the reply then
    differs from the 401 of a name that no user has. *)
Theorem login_failure_uniform (req : request) (s : state) :
  truthy (field (body req) "password") = true ->
  let found := List.find (user_name_is (params_userName req)) (users s) in
  let s' := serve lib POST_users_userName req s in
  ((found = None \/
    exists u,
      found = Some u /\
      compareSync lib (field (body req) "password") (User.password u) = Some false) ->
   reply s' = Some (401%Z, PNotFound) /\ users s' = users s) /\
  (forall u,
     found = Some u ->
     compareSync lib (field (body req) "password") (User.password u) = None ->
     reply s' = None /\ users s' = users s).
Proof.
  intros Hpw found s'. subst found s'.
  run_handler. cbn.
  change (user_matches lib (ByName ?n)) with (user_name_is n).
  rewrite Hpw. cbn. split.
  - intros [Hnone | (u & Hsome & Hcmp)].
    + rewrite Hnone. cbn. split; reflexivity.
    + rewrite Hsome. cbn. rewrite Hcmp. cbn. split; reflexivity.
  - intros u Hsome Hcmp. rewrite Hsome. cbn. rewrite Hcmp. cbn.
    split; reflexivity.
Qed.

(** C10, as the code has it.  A login whose body has no truthy password
    is answered with status 200 and the body
    [{ error: "password missing in the body of request" }]; the handler
    goes on to look the user up by name, and calls the hash comparison
    on the stored hash exactly when a user of that name exists.  Nothing
    else is sent and no stored user changes. *)
Theorem login_without_password (req : request) (s : state) :
  truthy (field (body req) "password") = false ->
  reply (serve lib POST_users_userName req s)
  = Some (200%Z, PError "password missing in the body of request") /\
  trace (serve lib POST_users_userName req s)
  = UserFindOne (ByName (params_userName req))
    :: match List.find (user_name_is (params_userName req)) (users s) with
       | Some u => [CompareSync (field (body req) "password") (User.password u)]
       | None => []
       end /\
  users (serve lib POST_users_userName req s) = users s.
Proof.
  intros Hpw. run_handler. cbn.
  change (user_matches lib (ByName ?n)) with (user_name_is n).
  rewrite Hpw. cbn.
  destruct (List.find _ (users s)) as [u|]; cbn; [| repeat split].
  destruct (compareSync lib _ _) as [[|]|]; cbn; repeat split.
Qed.

Lemma users_grow (r : route) (req : request) (s : state) :
  exists l, users (serve lib r req s) = users s ++ l.
Proof.
  destruct r; run_handler; cbn.
  all: repeat (case_match; cbn in *; simplify_eq).
  all: try (exists []; now rewrite app_nil_r).
  all: eexists; reflexivity.
Qed.

Lemma users_grow_all (rs : list (route * request)) (s : state) :
  exists l, users (serve_all lib rs s) = users s ++ l.
Proof.
  revert s. induction rs as [|[r req] rs IH]; intros s.
  - exists []. now rewrite app_nil_r.
  - cbn. destruct (IH (serve lib r req s)) as [l2 Hl2].
    destruct (users_grow r req s) as [l1 Hl1].
    exists (l1 ++ l2). unfold serve_all in Hl2.
    now rewrite Hl2, Hl1, app_assoc.
Qed.

Lemma find_app_Some {A} (f : A -> bool) (l l' : list A) (x : A) :
  List.find f l = Some x -> List.find f (l ++ l') = Some x.
Proof.
  induction l as [|y l IH]; [discriminate |].
  cbn. destruct (f y); [trivial | exact IH].
Qed.

Lemma find_app_None {A} (f : A -> bool) (l l' : list A) :
  List.find f l = None -> List.find f (l ++ l') = List.find f l'.
Proof.
  induction l as [|y l IH]; [reflexivity |].
  cbn. destruct (f y); [discriminate | exact IH].
Qed.

Lemma existsb_false_find {A} (f : A -> bool) (l : list A) :
  existsb f l = false -> List.find f l = None.
Proof.
  induction l as [|y l IH]; [reflexivity |].
  cbn. destruct (f y); [discriminate | exact IH].
Qed.

(** What a reply 201 of [POST /users] tells about the state. *)
Lemma users_create_created (req : request) (s : state) (u : User.t) :
  reply (serve lib POST_users req s) = Some (201%Z, PUser u) ->
  users (serve lib POST_users req s) = users s ++ [u] /\
  existsb (user_name_is (User.name u)) (users s) = false /\
  User.accessToken u
  = toHex (List.map (entropy lib) (seq (drawn s + 16) 128)).
Proof.
  run_handler. cbn.
  destruct (negb _ || _ || _); cbn; [discriminate |].
  destruct (hashSync lib _ _) as [hash|]; cbn; [| discriminate].
  destruct (User_validate _); cbn; [discriminate |].
  destruct (existsb (user_name_is _) (users s)) eqn:Hname; cbn; [discriminate |].
  destruct (existsb (user_email_is _) (users s)) eqn:Hemail; cbn; [discriminate |].
  intros Heq. injection Heq as <-. cbn. repeat split; assumption.
Qed.

(** C6.  Once [POST /users] has answered 201 with the record [u],
    whatever requests are served afterwards, a login under the name of
    [u] with a password that the comparison accepts against the stored
    hash is answered 200 with the [accessToken] of [u], which is the hex
    text of the 128 bytes drawn at creation.  The login changes neither
    the stored users nor the postings or contacts, so a further login
    gets the same token. *)
Theorem login_returns_creation_token
    (creq lreq : request) (s : state) (u : User.t)
    (between : list (route * request)) :
  reply (serve lib POST_users creq s) = Some (201%Z, PUser u) ->
  params_userName lreq = User.name u ->
  truthy (field (body lreq) "password") = true ->
  compareSync lib (field (body lreq) "password") (User.password u) = Some true ->
  let s1 := serve_all lib between (serve lib POST_users creq s) in
  let s2 := serve lib POST_users_userName lreq s1 in
  User.accessToken u
  = toHex (List.map (entropy lib) (seq (drawn s + 16) 128)) /\
  reply s2 = Some (200%Z, PLogin (User.name u) (User.accessToken u)) /\
  users s2 = users s1 /\
  postings s2 = postings s1 /\
  contacts s2 = contacts s1 /\
  List.find (user_name_is (User.name u)) (users s2) = Some u /\
  reply (serve lib POST_users_userName lreq s2) = reply s2.
Proof.
  intros Hcreated Hname Hpw Hcmp s1 s2.
  destruct (users_create_created creq s u Hcreated) as (Husers & Hfresh & Htok).
  assert (Hfind : List.find (user_name_is (User.name u)) (users s1) = Some u).
  { subst s1. destruct (users_grow_all between (serve lib POST_users creq s)) as [l ->].
    rewrite Husers. apply find_app_Some.
    rewrite find_app_None by now apply existsb_false_find.
    cbn. unfold user_name_is. now rewrite String.eqb_refl. }
  assert (Hlogin : forall t, List.find (user_name_is (User.name u)) (users t) = Some u ->
            reply (serve lib POST_users_userName lreq t)
            = Some (200%Z, PLogin (User.name u) (User.accessToken u)) /\
            users (serve lib POST_users_userName lreq t) = users t /\
            postings (serve lib POST_users_userName lreq t) = postings t /\
            contacts (serve lib POST_users_userName lreq t) = contacts t).
  { intros t Ht. run_handler. cbn.
    change (user_matches lib (ByName ?n)) with (user_name_is n).
    rewrite Hpw, Hname. cbn. rewrite Ht. cbn. rewrite Hcmp. cbn.
    repeat split. }
  destruct (Hlogin s1 Hfind) as (Hr & Hu & Hp & Hc).
  fold s2 in Hr, Hu, Hp, Hc.
  assert (Hfind2 : List.find (user_name_is (User.name u)) (users s2) = Some u)
    by now rewrite Hu.
  repeat split; try assumption.
  rewrite Hr. apply (Hlogin s2 Hfind2).
Qed.

(** ** Account creation *)

Lemma string_of_int_nonempty (d : Decimal.int) : NilZero.string_of_int d <> "".
Proof. destruct d as [d|d]; [destruct d |]; discriminate. Qed.

Lemma castString_truthy (v : jsval) : truthy v = true -> castString v <> "".
Proof.
  unfold truthy, castString.
  destruct v as [| |[|]|n|str|c str]; try discriminate.
  - intros _. apply string_of_int_nonempty.
  - intros H Heq. rewrite Heq in H. discriminate H.
Qed.

Lemma required_ok (path value : string) : value <> "" -> required path value = None.
Proof.
  intros H. unfold required.
  destruct (String.eqb_spec value ""); [contradiction | reflexivity].
Qed.

Lemma randomBytes_length (n : nat) (s : state) (bytes : list byte) (s' : state) :
  randomBytes lib n s = (inr bytes, s') -> length bytes = n.
Proof.
  unfold randomBytes, bind, gets, modify, ret. cbn.
  intros H. injection H as <- _. now rewrite length_map, length_seq.
Qed.


(** ** Creation of postings and contacts *)

Lemma serve_authenticated (r : route) (req : request) (s : state) (u : User.t) :
  resource_route r = true ->
  authenticated lib req s = Some u ->
  serve lib r req s = snd (handler lib r (set_user u req) (after_lookup req s)).
Proof.
  intros Hr Hu. unfold serve.
  now rewrite (app_resource_route r req _ Hr), authenticateUser_run, Hu.
Qed.

Lemma field_insert_ne (b : gmap string jsval) (k k' : string) (v : jsval) :
  k <> k' -> field (<[k := v]> b) k' = field b k'.
Proof. intros H. unfold field. now rewrite lookup_insert_ne. Qed.

Lemma stage_default_valid (id : ObjectId) (jt co : string) (c l : Date) (n : string) :
  Posting_validate (Posting.mk id jt co Posting.stage_default c n l) = None.
Proof. reflexivity. Qed.

(** C1.  [POST /postings] and [POST /contacts], for the caller [u] that
    the Authorization header resolves to.  Every posting and contact in
    the store afterwards was there before or has [userName] equal to the
    name of [u]; a reply 201 carries the record that was appended, whose
    [userName] is the name of [u]; the record is created whenever the
    two required fields are truthy and the fresh id is not taken; and a
    [userName] put in the body changes nothing at all: the resulting
    state, reply included, is the same for every value of it. *)
Theorem create_records_owner (r : route) (req : request) (s : state) (u : User.t) :
  r = POST_postings \/ r = POST_contacts ->
  authenticated lib req s = Some u ->
  let s' := serve lib r req s in
  (forall p, In p (postings s') ->
     In p (postings s) \/ Posting.userName p = User.name u) /\
  (forall c, In c (contacts s') ->
     In c (contacts s) \/ Contact.userName c = User.name u) /\
  (forall p, reply s' = Some (201%Z, PPosting p) ->
     Posting.userName p = User.name u /\ postings s' = postings s ++ [p]) /\
  (forall c, reply s' = Some (201%Z, PContact c) ->
     Contact.userName c = User.name u /\ contacts s' = contacts s ++ [c]) /\
  (r = POST_postings ->
   truthy (field (body req) "jobTitle") = true ->
   truthy (field (body req) "company") = true ->
   existsb (posting_id_is (objectId lib (minted s))) (postings s) = false ->
   exists p, reply s' = Some (201%Z, PPosting p) /\
     Posting._id p = objectId lib (minted s)) /\
  (r = POST_contacts ->
   truthy (field (body req) "name") = true ->
   truthy (field (body req) "company") = true ->
   User.name u <> "" ->
   existsb (contact_id_is (objectId lib (minted s))) (contacts s) = false ->
   exists c, reply s' = Some (201%Z, PContact c) /\
     Contact._id c = objectId lib (minted s)) /\
  (forall v : jsval,
     serve lib r (with_body (<["userName" := v]> (body req)) req) s = s').
Proof.
  intros Hr Hu s'. subst s'.
  assert (Hres : resource_route r = true) by (destruct Hr as [-> | ->]; reflexivity).
  rewrite (serve_authenticated r req s u Hres Hu).
  split; [| split; [| split; [| split; [| split; [| split]]]]].
  - intros p. destruct Hr as [-> | ->]; run_handler; cbn.
    all: repeat (case_match; cbn in *; simplify_eq); intros Hin; auto.
    all: try (apply in_app_iff in Hin; destruct Hin as [Hin | [<- | []]];
      [left; assumption | right; reflexivity]).
  - intros c. destruct Hr as [-> | ->]; run_handler; cbn.
    all: repeat (case_match; cbn in *; simplify_eq); intros Hin; auto.
    all: try (apply in_app_iff in Hin; destruct Hin as [Hin | [<- | []]];
      [left; assumption | right; reflexivity]).
  - intros p. destruct Hr as [-> | ->]; run_handler; cbn.
    all: repeat (case_match; cbn in *; simplify_eq); intros Heq;
      try discriminate Heq.
    all: injection Heq as <-; split; reflexivity.
  - intros c. destruct Hr as [-> | ->]; run_handler; cbn.
    all: repeat (case_match; cbn in *; simplify_eq); intros Heq;
      try discriminate Heq.
    all: injection Heq as <-; split; reflexivity.
  - intros -> Hjt Hco Hfresh. run_handler. cbn.
    rewrite Hjt, Hco. cbn. rewrite stage_default_valid. cbn.
    rewrite Hfresh. cbn. eexists. split; reflexivity.
  - intros -> Hn Hco Hname Hfresh. run_handler. cbn.
    rewrite Hn, Hco. cbn.
    assert (Hval : forall notes, Contact_validate
              (Contact.mk (objectId lib (minted s))
                 (castString (field (body req) "name"))
                 (castString (field (body req) "company")) notes (User.name u))
              = None).
    { intros notes. unfold Contact_validate.
      cbn [Contact.name Contact.company Contact.userName].
      rewrite !required_ok; auto using castString_truthy. }
    rewrite Hval. cbn. rewrite Hfresh. cbn. eexists. split; reflexivity.
  - intros v.
    assert (Hu' : authenticated lib
              (with_body (<["userName" := v]> (body req)) req) s = Some u)
      by exact Hu.
    rewrite (serve_authenticated r _ s u Hres Hu').
    destruct Hr as [-> | ->]; cbn [handler].
    + unfold postings_create. cbn [body set_user with_body].
      rewrite !field_insert_ne by discriminate. reflexivity.
    + unfold contacts_create. cbn [body set_user with_body].
      rewrite !field_insert_ne by discriminate. reflexivity.
Qed.

(** ** Collections with unique ids *)

Lemma remove_first_none {A} (f : A -> bool) (l : list A) :
  existsb f l = false -> remove_first f l = l.
Proof.
  induction l as [|x l IH]; [reflexivity |].
  cbn. destruct (f x); [discriminate |]. intros H. now rewrite IH.
Qed.

Lemma find_Some_existsb {A} (f : A -> bool) (l : list A) (x : A) :
  List.find f l = Some x -> existsb f l = true.
Proof.
  induction l as [|y l IH]; [discriminate |].
  cbn. destruct (f y); [reflexivity | exact IH].
Qed.

Lemma filter_remove_first {A} (f g : A -> bool) (l : list A) :
  (forall x, f x = true -> g x = false) ->
  List.filter g (remove_first f l) = List.filter g l.
Proof.
  intros Hfg. induction l as [|x l IH]; [reflexivity |].
  cbn. destruct (f x) eqn:Hf.
  - now rewrite (Hfg x Hf).
  - cbn. now rewrite IH.
Qed.

Section Keyed.

Context {A : Type} (key : A -> string) (own : A -> bool) (id : string).

Abbreviation has_id := (has_key key id).
Abbreviation mine := (has_key_and key own id).

Lemma find_mine_by_id (l : list A) (p : A) :
  NoDup (List.map key l) ->
  List.find mine l = Some p ->
  List.find has_id l = Some p.
Proof.
  induction l as [|x l IH]; [discriminate |].
  intros Hnd Hfind. inversion Hnd as [|k ks Hnotin Hnd']; subst.
  cbn in *. unfold mine in Hfind at 1.
  destruct (has_id x) eqn:Hx; cbn in Hfind.
  - destruct (own x); [assumption |].
    destruct (find_some _ _ Hfind) as [Hin Hp].
    apply andb_prop in Hp as [Hp _].
    unfold has_id in Hx, Hp.
    apply String.eqb_eq in Hx, Hp.
    exfalso. apply Hnotin. rewrite Hx, <- Hp.
    apply list_elem_of_In. now apply in_map.
  - now apply IH.
Qed.

Lemma filter_replace_first (m p : A) (l : list A) :
  List.find has_id l = Some p ->
  own p = true -> own m = true ->
  List.filter (fun x => negb (own x)) (replace_first has_id m l)
  = List.filter (fun x => negb (own x)) l.
Proof.
  intros Hfind Hp Hm. induction l as [|x l IH]; [discriminate |].
  cbn in *. destruct (has_id x).
  - injection Hfind as ->. cbn. now rewrite Hp, Hm.
  - cbn. now rewrite IH.
Qed.

Lemma map_key_replace_first (m : A) (l : list A) :
  key m = id ->
  List.map key (replace_first has_id m l) = List.map key l.
Proof.
  intros Hm. induction l as [|x l IH]; [reflexivity |].
  cbn. destruct (has_id x) eqn:Hx; rewrite !map_cons.
  - unfold has_id in Hx. apply String.eqb_eq in Hx. now rewrite Hm, Hx.
  - now rewrite IH.
Qed.

End Keyed.

(** ** Updates *)

Lemma castString_js_or (v : jsval) (old : string) :
  castString (js_or v (JStr old)) = overwrite v old.
Proof. unfold js_or, overwrite. now destruct (truthy v). Qed.

Lemma castNullable_js_or (v : jsval) (old : option string) :
  castNullable (js_or v (js_of_nullable old)) = overwrite_nullable v old.
Proof.
  unfold js_or, overwrite_nullable.
  destruct (truthy v) eqn:Hv.
  - destruct v; try discriminate Hv; reflexivity.
  - now destruct old.
Qed.

Lemma postings_merge_run (req : request) (p : Posting.t) (s0 : state) :
  postings_merge lib (field (body req) "jobTitle") (field (body req) "company")
    (field (body req) "stage") p s0
  = (inr (spec_merge_posting req (clock lib (ticks s0)) p),
     if stage_changes (field (body req) "stage") p
     then set_ticks (S (ticks s0)) s0 else s0).
Proof.
  unfold postings_merge, spec_merge_posting, stage_changes.
  unfold Posting_set_jobTitle, Posting_set_company, Posting_set_stage,
    Posting_set_lastStageChange.
  cbn [Posting._id Posting.jobTitle Posting.company Posting.stage
       Posting.createdAt Posting.userName Posting.lastStageChange].
  rewrite !castString_js_or.
  destruct (truthy (field (body req) "stage")) eqn:Hst; cbn [andb].
  - destruct (strict_neq_str _ _); unfold Date_now, bind, gets, modify, ret;
      cbn; unfold overwrite; now rewrite Hst.
  - reflexivity.
Qed.

Lemma matched_posting (id n : string) (l : list Posting.t) (p : Posting.t) :
  List.find (posting_matches id n) l = Some p ->
  In p l /\ Posting._id p = id /\ Posting.userName p = n.
Proof.
  intros H. destruct (find_some _ _ H) as [Hin Hm].
  apply andb_prop in Hm as [H1 H2].
  apply String.eqb_eq in H1, H2. auto.
Qed.

Lemma matched_contact (id n : string) (l : list Contact.t) (c : Contact.t) :
  List.find (contact_matches id n) l = Some c ->
  In c l /\ Contact._id c = id /\ Contact.userName c = n.
Proof.
  intros H. destruct (find_some _ _ H) as [Hin Hm].
  apply andb_prop in Hm as [H1 H2].
  apply String.eqb_eq in H1, H2. auto.
Qed.

(** A stored document that a filter on [_id] finds has the text of an
    ObjectId as its id, so the filter value is cast to itself. *)
Lemma cast_of_stored {A} (key : A -> ObjectId) (own : A -> bool) (id : string)
    (l : list A) (x : A) :
  ids_of key l ->
  List.find (has_key_and key own id) l = Some x ->
  castObjectId id = Some id.
Proof.
  intros [_ Hall] Hfind. destruct (find_some _ _ Hfind) as [Hin Hm].
  apply andb_prop in Hm as [Hm _]. apply String.eqb_eq in Hm.
  apply castObjectId_canonical. rewrite <- Hm.
  rewrite Forall_forall in Hall. apply Hall. now apply list_elem_of_In.
Qed.

Lemma cast_of_posting (req : request) (n : string) (s : state) (p : Posting.t) :
  ids_unique s ->
  List.find (posting_matches (params_id req) n) (postings s) = Some p ->
  castObjectId (params_id req) = Some (params_id req).
Proof.
  intros [Hids _].
  exact (cast_of_stored Posting._id (posting_owner_is n) (params_id req)
           (postings s) p Hids).
Qed.

Lemma cast_of_contact (req : request) (n : string) (s : state) (c : Contact.t) :
  ids_unique s ->
  List.find (contact_matches (params_id req) n) (contacts s) = Some c ->
  castObjectId (params_id req) = Some (params_id req).
Proof.
  intros [_ Hids].
  exact (cast_of_stored Contact._id (contact_owner_is n) (params_id req)
           (contacts s) c Hids).
Qed.

Lemma found_by_id (req : request) (n : string) (s : state) (p : Posting.t) :
  ids_unique s ->
  List.find (posting_matches (params_id req) n) (postings s) = Some p ->
  List.find (posting_id_is (Posting._id p)) (postings s) = Some p.
Proof.
  intros [[Hnd _] _] Hfind.
  destruct (matched_posting _ _ _ _ Hfind) as (_ & Hid & _). rewrite Hid.
  exact (find_mine_by_id Posting._id (posting_owner_is n) (params_id req)
           (postings s) p Hnd Hfind).
Qed.

Lemma found_contact_by_id (req : request) (n : string) (s : state) (c : Contact.t) :
  ids_unique s ->
  List.find (contact_matches (params_id req) n) (contacts s) = Some c ->
  List.find (contact_id_is (Contact._id c)) (contacts s) = Some c.
Proof.
  intros [_ [Hnd _]] Hfind.
  destruct (matched_contact _ _ _ _ Hfind) as (_ & Hid & _). rewrite Hid.
  exact (find_mine_by_id Contact._id (contact_owner_is n) (params_id req)
           (contacts s) c Hnd Hfind).
Qed.

(** [PUT /postings/:id] on a document that the caller owns, found under
    the id [oid] that the [:id] of the request is cast to. *)
Lemma postings_update_run_at
    (req : request) (s : state) (u : User.t) (oid : ObjectId) (p : Posting.t) :
  authenticated lib req s = Some u ->
  castObjectId (params_id req) = Some oid ->
  List.find (posting_matches oid (User.name u)) (postings s) = Some p ->
  let m := spec_merge_posting req (clock lib (ticks s)) p in
  let s' := serve lib PUT_postings_id req s in
  trace s'
  = [UserFindOne (ByAccessToken (authorization req));
     PostingFindOne (params_id req) (User.name u); PostingSave m] /\
  users s' = users s /\
  contacts s' = contacts s /\
  match Posting_validate m with
  | None =>
      reply s' = Some (200%Z, PPosting m) /\
      postings s' = replace_first (posting_id_is (Posting._id p)) m (postings s)
  | Some _ => reply s' = None /\ postings s' = postings s
  end.
Proof.
  intros Hu Hcast Hfind m s'. subst s'.
  destruct (matched_posting _ _ _ _ Hfind) as (Hin & Hid & Hown).
  assert (Hex : existsb (posting_id_is (Posting._id p)) (postings s) = true).
  { apply existsb_exists. exists p. split; [assumption |].
    apply String.eqb_refl. }
  rewrite (serve_authenticated PUT_postings_id req s u eq_refl Hu).
  unfold handler, postings_update, req_user, Posting_findOne, Posting_save,
    res_send, emit, bind, gets, modify, ret, raise_if, throw.
  cbn. rewrite Hcast. cbn. rewrite Hfind, postings_merge_run.
  cbn [ticks after_lookup begin_request set_trace set_res].
  fold m. change (Posting._id m) with (Posting._id p).
  destruct (stage_changes _ p); cbn; destruct (Posting_validate m); cbn;
    rewrite ?Hex; cbn; repeat split.
Qed.

Lemma postings_update_run (req : request) (s : state) (u : User.t) (p : Posting.t) :
  authenticated lib req s = Some u ->
  ids_unique s ->
  List.find (posting_matches (params_id req) (User.name u)) (postings s) = Some p ->
  let m := spec_merge_posting req (clock lib (ticks s)) p in
  let s' := serve lib PUT_postings_id req s in
  trace s'
  = [UserFindOne (ByAccessToken (authorization req));
     PostingFindOne (params_id req) (User.name u); PostingSave m] /\
  users s' = users s /\
  contacts s' = contacts s /\
  match Posting_validate m with
  | None =>
      reply s' = Some (200%Z, PPosting m) /\
      postings s' = replace_first (posting_id_is (Posting._id p)) m (postings s)
  | Some _ => reply s' = None /\ postings s' = postings s
  end.
Proof.
  intros Hu Huniq Hfind.
  apply (postings_update_run_at req s u (params_id req) p Hu); [| exact Hfind].
  exact (cast_of_posting req _ s p Huniq Hfind).
Qed.


(** [PUT /contacts/:id] on a document that the caller owns. *)
Lemma contacts_update_run_at
    (req : request) (s : state) (u : User.t) (oid : ObjectId) (c : Contact.t) :
  authenticated lib req s = Some u ->
  castObjectId (params_id req) = Some oid ->
  List.find (contact_matches oid (User.name u)) (contacts s) = Some c ->
  let m := spec_merge_contact req c in
  let s' := serve lib PUT_contacts_id req s in
  trace s'
  = [UserFindOne (ByAccessToken (authorization req));
     ContactFindOne (params_id req) (User.name u); ContactSave m] /\
  users s' = users s /\
  postings s' = postings s /\
  match Contact_validate m with
  | None =>
      reply s' = Some (200%Z, PContact m) /\
      contacts s' = replace_first (contact_id_is (Contact._id c)) m (contacts s)
  | Some _ => reply s' = None /\ contacts s' = contacts s
  end.
Proof.
  intros Hu Hcast Hfind m s'. subst s'.
  destruct (matched_contact _ _ _ _ Hfind) as (Hin & Hid & Hown).
  assert (Hex : existsb (contact_id_is (Contact._id c)) (contacts s) = true).
  { apply existsb_exists. exists c. split; [assumption |].
    apply String.eqb_refl. }
  rewrite (serve_authenticated PUT_contacts_id req s u eq_refl Hu).
  unfold handler, contacts_update, contacts_merge, req_user, Contact_findOne,
    Contact_save, res_send, emit, bind, gets, modify, ret, raise_if, throw.
  cbn. rewrite Hcast. cbn. rewrite Hfind.
  unfold Contact_set_name, Contact_set_company, Contact_set_notes.
  cbn [Contact._id Contact.name Contact.company Contact.notes Contact.userName].
  rewrite !castString_js_or, castNullable_js_or.
  change (Contact.mk (Contact._id c) _ _ _ _) with m.
  cbn. destruct (Contact_validate m); cbn; rewrite ?Hex; cbn; repeat split.
Qed.

Lemma contacts_update_run (req : request) (s : state) (u : User.t) (c : Contact.t) :
  authenticated lib req s = Some u ->
  ids_unique s ->
  List.find (contact_matches (params_id req) (User.name u)) (contacts s) = Some c ->
  let m := spec_merge_contact req c in
  let s' := serve lib PUT_contacts_id req s in
  trace s'
  = [UserFindOne (ByAccessToken (authorization req));
     ContactFindOne (params_id req) (User.name u); ContactSave m] /\
  users s' = users s /\
  postings s' = postings s /\
  match Contact_validate m with
  | None =>
      reply s' = Some (200%Z, PContact m) /\
      contacts s' = replace_first (contact_id_is (Contact._id c)) m (contacts s)
  | Some _ => reply s' = None /\ contacts s' = contacts s
  end.
Proof.
  intros Hu Huniq Hfind.
  apply (contacts_update_run_at req s u (params_id req) c Hu); [| exact Hfind].
  exact (cast_of_contact req _ s c Huniq Hfind).
Qed.

(** ** Access by id *)

Lemma find_None_existsb {A} (f : A -> bool) (l : list A) :
  List.find f l = None -> existsb f l = false.
Proof.
  induction l as [|y l IH]; [reflexivity |].
  cbn. destruct (f y); [discriminate | exact IH].
Qed.

Lemma existsb_andb_false {A} (f g : A -> bool) (l : list A) :
  existsb f l = false -> existsb (fun x => f x && g x) l = false.
Proof.
  induction l as [|y l IH]; [reflexivity |].
  cbn. destruct (f y); [discriminate |]. exact IH.
Qed.

Lemma by_id_resource (r : route) :
  by_id_route r = true -> resource_route r = true.
Proof. now destruct r. Qed.

(** The [:id] of the request is the text of an ObjectId, and the caller
    has no document of that id. *)
Lemma not_found_run
    (r : route) (req : request) (s : state) (u : User.t) (oid : ObjectId) :
  by_id_route r = true ->
  authenticated lib req s = Some u ->
  castObjectId (params_id req) = Some oid ->
  visible r (with_id oid req) (User.name u) s = false ->
  reply (serve lib r req s) = Some (not_found r) /\
  users (serve lib r req s) = users s /\
  postings (serve lib r req s) = postings s /\
  contacts (serve lib r req s) = contacts s.
Proof.
  intros Hr Hu Hcast Hvis.
  rewrite (serve_authenticated r req s u (by_id_resource r Hr) Hu).
  destruct r; try discriminate Hr;
    unfold visible in Hvis; cbn in Hvis;
    run_handler; cbn; rewrite Hcast; cbn;
    rewrite ?(existsb_false_find _ _ Hvis), ?(remove_first_none _ _ Hvis);
    cbn; repeat split.
Qed.

Lemma not_visible_run (r : route) (req : request) (s : state) (u : User.t) :
  by_id_route r = true ->
  authenticated lib req s = Some u ->
  canonical (params_id req) = true ->
  visible r req (User.name u) s = false ->
  reply (serve lib r req s) = Some (not_found r) /\
  users (serve lib r req s) = users s /\
  postings (serve lib r req s) = postings s /\
  contacts (serve lib r req s) = contacts s.
Proof.
  intros Hr Hu Hcan Hvis.
  apply (not_found_run r req s u (params_id req) Hr Hu).
  - now apply castObjectId_canonical.
  - now destruct req.
Qed.

(** The [:id] of the request is not the text of an ObjectId: the query
    rejects, nothing is sent and nothing changes. *)
Lemma cast_error_run (r : route) (req : request) (s : state) (u : User.t) :
  by_id_route r = true ->
  authenticated lib req s = Some u ->
  castObjectId (params_id req) = None ->
  reply (serve lib r req s) = None /\
  users (serve lib r req s) = users s /\
  postings (serve lib r req s) = postings s /\
  contacts (serve lib r req s) = contacts s.
Proof.
  intros Hr Hu Hcast.
  rewrite (serve_authenticated r req s u (by_id_resource r Hr) Hu).
  destruct r; try discriminate Hr; run_handler; cbn; rewrite Hcast; cbn;
    repeat split.
Qed.

Lemma foreign_postings_kept (r : route) (req : request) (s : state) (u : User.t) :
  by_id_route r = true ->
  authenticated lib req s = Some u ->
  ids_unique s ->
  foreign_postings (User.name u) (serve lib r req s)
  = foreign_postings (User.name u) s.
Proof.
  intros Hr Hu Huniq. unfold foreign_postings.
  destruct (castObjectId (params_id req)) as [oid|] eqn:Hcast;
    [| now destruct (cast_error_run r req s u Hr Hu Hcast) as (_ & _ & -> & _)].
  pose proof (serve_authenticated r req s u (by_id_resource r Hr) Hu) as Hserve.
  destruct r; try discriminate Hr.
  - (* PUT /postings/:id *)
    destruct (List.find (posting_matches oid (User.name u)) (postings s))
      as [p|] eqn:Hfind.
    + destruct (postings_update_run_at req s u oid p Hu Hcast Hfind)
        as (_ & _ & _ & Hcase).
      destruct (matched_posting _ _ _ _ Hfind) as (_ & Hid & Hown).
      destruct (Posting_validate _); destruct Hcase as [_ ->];
        [reflexivity |].
      apply (filter_replace_first Posting._id (posting_owner_is (User.name u))
               (Posting._id p) _ p).
      * rewrite Hid. destruct Huniq as [[Hnd _] _].
        exact (find_mine_by_id Posting._id (posting_owner_is (User.name u))
                 oid (postings s) p Hnd Hfind).
      * unfold posting_owner_is. rewrite Hown. apply String.eqb_refl.
      * unfold posting_owner_is. cbn. rewrite Hown. apply String.eqb_refl.
    + apply find_None_existsb in Hfind.
      now destruct (not_found_run PUT_postings_id req s u oid eq_refl Hu Hcast Hfind)
        as (_ & _ & -> & _).
  - (* GET /postings/:id *)
    rewrite Hserve. clear Hserve.
    run_handler; cbn. now repeat (case_match; cbn in *; simplify_eq).
  - (* DELETE /postings/:id *)
    rewrite Hserve. clear Hserve.
    run_handler; cbn. rewrite Hcast. cbn.
    assert (Hrm : List.filter (fun p => negb (posting_owner_is (User.name u) p))
              (remove_first (posting_matches oid (User.name u)) (postings s))
            = List.filter (fun p => negb (posting_owner_is (User.name u) p)) (postings s)).
    { apply filter_remove_first. intros x Hx.
      apply andb_prop in Hx as [_ ->]. reflexivity. }
    now repeat (case_match; cbn in *; simplify_eq).
  - (* PUT /contacts/:id *)
    rewrite Hserve. clear Hserve.
    run_handler; cbn. now repeat (case_match; cbn in *; simplify_eq).
  - (* DELETE /contacts/:id *)
    rewrite Hserve. clear Hserve.
    run_handler; cbn. now repeat (case_match; cbn in *; simplify_eq).
Qed.

Lemma foreign_contacts_kept (r : route) (req : request) (s : state) (u : User.t) :
  by_id_route r = true ->
  authenticated lib req s = Some u ->
  ids_unique s ->
  foreign_contacts (User.name u) (serve lib r req s)
  = foreign_contacts (User.name u) s.
Proof.
  intros Hr Hu Huniq. unfold foreign_contacts.
  destruct (castObjectId (params_id req)) as [oid|] eqn:Hcast;
    [| now destruct (cast_error_run r req s u Hr Hu Hcast) as (_ & _ & _ & ->)].
  pose proof (serve_authenticated r req s u (by_id_resource r Hr) Hu) as Hserve.
  destruct r; try discriminate Hr.
  - (* PUT /postings/:id *)
    rewrite Hserve. clear Hserve.
    run_handler; cbn. now repeat (case_match; cbn in *; simplify_eq).
  - (* GET /postings/:id *)
    rewrite Hserve. clear Hserve.
    run_handler; cbn. now repeat (case_match; cbn in *; simplify_eq).
  - (* DELETE /postings/:id *)
    rewrite Hserve. clear Hserve.
    run_handler; cbn. now repeat (case_match; cbn in *; simplify_eq).
  - (* PUT /contacts/:id *)
    destruct (List.find (contact_matches oid (User.name u)) (contacts s))
      as [c|] eqn:Hfind.
    + destruct (contacts_update_run_at req s u oid c Hu Hcast Hfind)
        as (_ & _ & _ & Hcase).
      destruct (matched_contact _ _ _ _ Hfind) as (_ & Hid & Hown).
      destruct (Contact_validate _); destruct Hcase as [_ ->];
        [reflexivity |].
      apply (filter_replace_first Contact._id (contact_owner_is (User.name u))
               (Contact._id c) _ c).
      * rewrite Hid. destruct Huniq as [_ [Hnd _]].
        exact (find_mine_by_id Contact._id (contact_owner_is (User.name u))
                 oid (contacts s) c Hnd Hfind).
      * unfold contact_owner_is. rewrite Hown. apply String.eqb_refl.
      * unfold contact_owner_is. cbn. rewrite Hown. apply String.eqb_refl.
    + apply find_None_existsb in Hfind.
      now destruct (not_found_run PUT_contacts_id req s u oid eq_refl Hu Hcast Hfind)
        as (_ & _ & _ & ->).
  - (* DELETE /contacts/:id *)
    rewrite Hserve. clear Hserve.
    run_handler; cbn. rewrite Hcast. cbn.
    assert (Hrm : List.filter (fun c => negb (contact_owner_is (User.name u) c))
              (remove_first (contact_matches oid (User.name u)) (contacts s))
            = List.filter (fun c => negb (contact_owner_is (User.name u) c)) (contacts s)).
    { apply filter_remove_first. intros x Hx.
      apply andb_prop in Hx as [_ ->]. reflexivity. }
    now repeat (case_match; cbn in *; simplify_eq).
Qed.

Lemma reply_owned (r : route) (req : request) (s : state) (u : User.t) :
  by_id_route r = true ->
  authenticated lib req s = Some u ->
  (forall p, reply (serve lib r req s) = Some (200%Z, PPosting p) ->
     Posting.userName p = User.name u) /\
  (forall c, reply (serve lib r req s) = Some (200%Z, PContact c) ->
     Contact.userName c = User.name u).
Proof.
  intros Hr Hu.
  rewrite (serve_authenticated r req s u (by_id_resource r Hr) Hu).
  destruct r; try discriminate Hr; run_handler; cbn.
  all: destruct (castObjectId (params_id req)) as [oid|]; cbn;
    [| split; intros ? Heq; discriminate Heq].
  all: destruct (List.find _ _) as [d|] eqn:Hfind; cbn;
    [| split; intros ? Heq; discriminate Heq].
  all: try (apply matched_posting in Hfind as (_ & _ & Hown)).
  all: try (apply matched_contact in Hfind as (_ & _ & Hown)).
  all: split; intros x.
  all: repeat (case_match; cbn in *; simplify_eq); intros Heq;
    try discriminate Heq.
  all: injection Heq as <-; exact Hown.
Qed.

(** C2, for an [:id] that is the text of an ObjectId and for one that is
    not.  Reading, updating or deleting a posting, and updating or
    deleting a contact, by id, for the caller [u] that the Authorization
    header resolves to.  An [:id] that is not the text of an ObjectId
    makes the query reject: nothing is sent, no 404 either, and nothing
    changes.  For an [:id] that is cast to the ObjectId [oid]: when the
    collection has no document of id [oid] with [userName] equal to the
    name of [u], the reply is 404 with the fixed body of the route, and
    nothing is stored, changed or removed; a reply 200 therefore needs
    such a document; and the reply for an id that no document has and
    the reply for an id whose documents all belong to other users are
    the same reply.  Whatever the [:id], a document sent back belongs to
    [u], and the documents of the other users are the same after the
    request as before. *)
Theorem by_id_scoped_to_owner (r : route) (req : request) (s : state) (u : User.t) :
  by_id_route r = true ->
  authenticated lib req s = Some u ->
  let s' := serve lib r req s in
  (castObjectId (params_id req) = None ->
     reply s' = None /\
     users s' = users s /\ postings s' = postings s /\ contacts s' = contacts s) /\
  (forall oid, castObjectId (params_id req) = Some oid ->
     let req0 := with_id oid req in
     (visible r req0 (User.name u) s = false ->
        reply s' = Some (not_found r) /\
        users s' = users s /\ postings s' = postings s /\ contacts s' = contacts s) /\
     (status_of (reply s') = Some 200%Z -> visible r req0 (User.name u) s = true) /\
     (id_exists r req0 s = false -> visible r req0 (User.name u) s = false) /\
     (forall req2 s2 u2 oid2,
        authenticated lib req2 s2 = Some u2 ->
        castObjectId (params_id req2) = Some oid2 ->
        id_exists r req0 s = false ->
        id_exists r (with_id oid2 req2) s2 = true ->
        visible r (with_id oid2 req2) (User.name u2) s2 = false ->
        reply (serve lib r req2 s2) = reply s')) /\
  (forall p, reply s' = Some (200%Z, PPosting p) ->
     Posting.userName p = User.name u) /\
  (forall c, reply s' = Some (200%Z, PContact c) ->
     Contact.userName c = User.name u) /\
  (ids_unique s ->
     foreign_postings (User.name u) s' = foreign_postings (User.name u) s /\
     foreign_contacts (User.name u) s' = foreign_contacts (User.name u) s).
Proof.
  intros Hr Hu s'. subst s'.
  split; [| split; [| split; [| split]]].
  - now apply (cast_error_run r req s u).
  - intros oid Hcast req0.
    assert (Hex : id_exists r req0 s = false ->
              visible r req0 (User.name u) s = false).
    { unfold id_exists, visible. destruct (on_contacts r); apply existsb_andb_false. }
    split; [| split; [| split]].
    + now apply not_found_run.
    + intros H200.
      destruct (visible r req0 (User.name u) s) eqn:Hvis; [reflexivity |].
      destruct (not_found_run r req s u oid Hr Hu Hcast Hvis) as (Hreply & _).
      rewrite Hreply in H200. discriminate H200.
    + exact Hex.
    + intros req2 s2 u2 oid2 Hu2 Hcast2 Hnone _ Hvis2.
      destruct (not_found_run r req s u oid Hr Hu Hcast (Hex Hnone)) as (-> & _).
      now destruct (not_found_run r req2 s2 u2 oid2 Hr Hu2 Hcast2 Hvis2) as (-> & _).
  - apply (reply_owned r req s u Hr Hu).
  - apply (reply_owned r req s u Hr Hu).
  - intros Huniq. split.
    + now apply foreign_postings_kept.
    + now apply foreign_contacts_kept.
Qed.

(** ** The stage and the other fields of an update *)



Lemma replace_first_In {A} (f : A -> bool) (q p : A) (l : list A) :
  List.find f l = Some p -> In q (replace_first f q l).
Proof.
  induction l as [|x l IH]; [discriminate |].
  cbn. destruct (f x); cbn; auto.
Qed.

Lemma replace_first_others {A} (f : A -> bool) (q p : A) (l : list A) :
  List.find f l = Some p ->
  forall x, In x l -> x <> p -> In x (replace_first f q l).
Proof.
  induction l as [|y l IH]; [discriminate |].
  cbn. destruct (f y).
  - intros [= ->] x [-> | Hin] Hne; [contradiction | now right].
  - intros Hfind x [-> | Hin] Hne; [now left | right; now apply IH].
Qed.

(** After [replace_first], a lookup that the new document passes, and
    that no document without the id passes, finds the new document. *)
Lemma find_after_replace {A} (f g : A -> bool) (q : A) (l : list A) :
  existsb f l = true ->
  g q = true ->
  (forall x, f x = false -> g x = false) ->
  List.find g (replace_first f q l) = Some q.
Proof.
  intros Hex Hq Hfg. induction l as [|x l IH]; [discriminate Hex |].
  cbn in *. destruct (f x) eqn:Hx; cbn.
  - now rewrite Hq.
  - rewrite (Hfg x Hx). now apply IH.
Qed.

(** What the store holds once an update of the posting [p] wrote [m]. *)
Lemma posting_written (req : request) (s : state) (u : User.t) (p m : Posting.t) :
  ids_unique s ->
  List.find (posting_matches (params_id req) (User.name u)) (postings s) = Some p ->
  Posting._id m = Posting._id p ->
  Posting.userName m = Posting.userName p ->
  let l := replace_first (posting_id_is (Posting._id p)) m (postings s) in
  List.find (posting_matches (params_id req) (User.name u)) l = Some m /\
  List.find (posting_id_is (Posting._id p)) l = Some m /\
  (forall x, In x (postings s) -> x <> p -> In x l).
Proof.
  intros Huniq Hfind Hid Hown l. subst l.
  destruct (matched_posting _ _ _ _ Hfind) as (Hin & Hpid & Hpown).
  assert (Hex : existsb (posting_id_is (Posting._id p)) (postings s) = true).
  { apply existsb_exists. exists p. split; [assumption |]. apply String.eqb_refl. }
  split; [| split].
  - apply find_after_replace; [exact Hex | |].
    + unfold posting_matches, posting_id_is, posting_owner_is.
      rewrite Hid, Hown, Hpid, Hpown, !String.eqb_refl. reflexivity.
    + intros x Hx. unfold posting_matches. rewrite <- Hpid.
      unfold posting_id_is in *. now rewrite Hx.
  - apply find_after_replace; [exact Hex | | auto].
    unfold posting_id_is. rewrite Hid. apply String.eqb_refl.
  - apply replace_first_others. now apply (found_by_id req (User.name u)).
Qed.






(** C9.  A [PUT /postings/:id] that is answered 200 with the document
    [q], on the posting [p] of the caller: [q] has the [_id], the
    [createdAt] and the [userName] of [p]; the store holds [q] where it
    held [p] and every other posting as before; users and contacts are
    unchanged. *)
Theorem update_keeps_identity
    (req : request) (s : state) (u : User.t) (p q : Posting.t) :
  authenticated lib req s = Some u ->
  ids_unique s ->
  List.find (posting_matches (params_id req) (User.name u)) (postings s) = Some p ->
  let s' := serve lib PUT_postings_id req s in
  reply s' = Some (200%Z, PPosting q) ->
  Posting._id q = Posting._id p /\
  Posting.createdAt q = Posting.createdAt p /\
  Posting.userName q = Posting.userName p /\
  postings s' = replace_first (posting_id_is (Posting._id p)) q (postings s) /\
  In q (postings s') /\
  (forall x, In x (postings s) -> x <> p -> In x (postings s')) /\
  length (postings s') = length (postings s) /\
  users s' = users s /\
  contacts s' = contacts s.
Proof.
  intros Hu Huniq Hfind s' Hreply.
  destruct (postings_update_run req s u p Hu Huniq Hfind) as (_ & Husers & Hcontacts & Hcase).
  fold s' in Husers, Hcontacts, Hcase.
  pose proof (found_by_id req (User.name u) s p Huniq Hfind) as Hby.
  destruct (Posting_validate _); destruct Hcase as [Hr Hstore];
    rewrite Hr in Hreply; [discriminate Hreply |].
  injection Hreply as <-. rewrite Hstore.
  repeat split; try assumption.
  - now apply replace_first_In with (p := p).
  - now apply replace_first_others.
  - clear. induction (postings s) as [|x l IH]; [reflexivity |].
    cbn. destruct (posting_id_is _ x); cbn; [reflexivity | now rewrite IH].
Qed.

(** ** The ids of the store stay ObjectIds, and unique *)

Lemma NoDup_snoc_fresh {A} (key : A -> string) (x : A) (l : list A) :
  NoDup (List.map key l) ->
  existsb (fun y => String.eqb (key y) (key x)) l = false ->
  NoDup (List.map key (l ++ [x])).
Proof.
  intros Hnd Hfresh. rewrite map_app. apply NoDup_app. split; [assumption |].
  split; [| apply NoDup_singleton].
  intros k Hk Hx. apply list_elem_of_singleton in Hx. subst k.
  apply list_elem_of_In, in_map_iff in Hk as (y & Hy & Hin).
  assert (Hex : existsb (fun y => String.eqb (key y) (key x)) l = true).
  { apply existsb_exists. exists y. split; [assumption |].
    now apply String.eqb_eq. }
  rewrite Hfresh in Hex. discriminate Hex.
Qed.

Lemma In_remove_first {A} (f : A -> bool) (y : A) (l : list A) :
  In y (remove_first f l) -> In y l.
Proof.
  induction l as [|z l IH]; [contradiction |].
  cbn. destruct (f z); [now right |].
  intros [-> | Hin]; [now left | right; now apply IH].
Qed.

Lemma NoDup_remove_first {A} (key : A -> string) (f : A -> bool) (l : list A) :
  NoDup (List.map key l) -> NoDup (List.map key (remove_first f l)).
Proof.
  induction l as [|x l IH]; [trivial |].
  rewrite map_cons. intros Hnd. apply NoDup_cons in Hnd as [Hx Hnd].
  cbn. destruct (f x); [assumption |].
  rewrite map_cons. apply NoDup_cons. split; [| now apply IH].
  intros Hin. apply Hx.
  apply list_elem_of_In, in_map_iff in Hin as (y & Hy & Hin).
  apply list_elem_of_In, in_map_iff. exists y. split; [assumption |].
  now apply In_remove_first with (f := f).
Qed.

Lemma ids_of_snoc {A} (key : A -> ObjectId) (x : A) (l : list A) :
  ids_of key l ->
  canonical (key x) = true ->
  existsb (fun y => String.eqb (key y) (key x)) l = false ->
  ids_of key (l ++ [x]).
Proof.
  intros [Hnd Hall] Hx Hfresh. split.
  - now apply NoDup_snoc_fresh.
  - apply Forall_app. split; [assumption |]. now apply Forall_singleton.
Qed.

Lemma ids_of_remove_first {A} (key : A -> ObjectId) (f : A -> bool) (l : list A) :
  ids_of key l -> ids_of key (remove_first f l).
Proof.
  intros [Hnd Hall]. split; [now apply NoDup_remove_first |].
  rewrite Forall_forall in *. intros y Hy. apply Hall.
  apply list_elem_of_In. apply list_elem_of_In in Hy.
  now apply In_remove_first with (f := f).
Qed.

Lemma ids_of_replace_first {A} (key : A -> ObjectId) (id : string) (m : A)
    (l : list A) :
  ids_of key l ->
  key m = id ->
  existsb (has_key key id) l = true ->
  ids_of key (replace_first (has_key key id) m l).
Proof.
  intros [Hnd Hall] Hm Hex. split.
  - pose proof (map_key_replace_first key id m l Hm) as Hmap.
    unfold ObjectId in *. now rewrite Hmap.
  - assert (Hcan : canonical (key m) = true).
    { apply existsb_exists in Hex as (x & Hin & Hx).
      apply String.eqb_eq in Hx. rewrite Hm, <- Hx.
      rewrite Forall_forall in Hall. apply Hall. now apply list_elem_of_In. }
    clear Hnd Hex. induction l as [|x l IH]; [constructor |].
    apply Forall_cons in Hall as [Hx Hall].
    cbn. destruct (has_key key id x).
    + now apply Forall_cons.
    + apply Forall_cons. split; [assumption | now apply IH].
Qed.

Lemma ids_unique_serve (r : route) (req : request) (s : state) :
  ids_unique s -> ids_unique (serve lib r req s).
Proof.
  intros [Hp Hc]. unfold ids_unique.
  destruct r; run_handler; cbn.
  all: repeat (case_match; cbn in *; simplify_eq); split; try assumption.
  all: try (now apply ids_of_remove_first).
  all: try (apply ids_of_snoc; [assumption | apply objectId_canonical | assumption]).
  all: try (apply (ids_of_replace_first Posting._id); [assumption | reflexivity | assumption]).
  all: try (apply (ids_of_replace_first Contact._id); [assumption | reflexivity | assumption]).
Qed.

Lemma ids_unique_serve_all (rs : list (route * request)) (s : state) :
  ids_unique s -> ids_unique (serve_all lib rs s).
Proof.
  revert s. induction rs as [|[r req] rs IH]; intros s Hs; [exact Hs |].
  cbn. apply IH. now apply ids_unique_serve.
Qed.

End Properties.

(** * The theorems at concrete requests *)

(** Conjunctions of closed facts are settled one computation each. *)
Ltac compute_each :=
  repeat match goal with |- _ /\ _ => split end;
  try (vm_compute; reflexivity).

Example email_validator_ok : email_validator "a@x.com" = true.
Proof. reflexivity. Qed.

Example email_validator_no_tld : email_validator "a@xcom" = false.
Proof. reflexivity. Qed.

Example email_validator_space : email_validator "a b@x.com" = false.
Proof. reflexivity. Qed.

Example email_validator_two_ats : email_validator "a@b@x.com" = false.
Proof. reflexivity. Qed.

Example scenario_statuses :
  List.map status_of (replies Sample.lib Sample.scenario Sample.empty)
  = [Some 201; Some 200; Some 201; Some 200; Some 200; Some 200; Some 404]%Z.
Proof. vm_compute. reflexivity. Qed.

Example scenario_lastStageChange :
  List.map replied_lastStageChange
    (replies Sample.lib Sample.scenario Sample.empty)
  = [None; None; Some (Sample.clock 1); Some (Sample.clock 2);
     Some (Sample.clock 2); None; None].
Proof. vm_compute. reflexivity. Qed.

Example bad_stage_is_not_stored :
  let s' := serve Sample.lib PUT_postings_id Sample.alice_sets_bad_stage
              Sample.populated in
  reply s' = None /\ postings s' = postings Sample.populated.
Proof. vm_compute. split; reflexivity. Qed.

Example bob_cannot_delete :
  let s' := serve Sample.lib DELETE_postings_id Sample.bob_deletes_posting
              Sample.populated in
  reply s' = Some (not_found DELETE_postings_id) /\
  postings s' = postings Sample.populated.
Proof. vm_compute. split; reflexivity. Qed.

Example upper_case_id_is_cast :
  reply (serve Sample.lib GET_postings_id Cases.alice_reads_upper Sample.populated)
  = Some (200%Z, PPosting Sample.the_posting).
Proof. vm_compute. reflexivity. Qed.

Example no_header_closed_store :
  reply (serve Sample.lib POST_postings Cases.anonymous_posts Sample.two_users)
  = Some (401%Z, PError "User logged out").
Proof. vm_compute. reflexivity. Qed.

Lemma sample_populated_unique : ids_unique Sample.populated.
Proof.
  unfold Sample.populated, Sample.two_users.
  do 4 apply ids_unique_serve.
  split; (split; [apply NoDup_nil_2 | constructor]).
Qed.


Lemma create_records_owner_witness :
  exists p,
    reply (serve Sample.lib POST_postings Sample.alice_posts Sample.two_users)
    = Some (201%Z, PPosting p) /\
    Posting.userName p = "alice" /\
    field (body Sample.alice_posts) "userName" = JStr "bob".
Proof.
  destruct (create_records_owner Sample.lib POST_postings Sample.alice_posts
              Sample.two_users Sample.alice (or_introl eq_refl)
              ltac:(vm_compute; reflexivity))
    as (_ & _ & Hown & _ & Hmade & _).
  destruct Hmade as (p & Hp & _); try (vm_compute; reflexivity).
  exists p. split; [exact Hp |]. split; [| vm_compute; reflexivity].
  exact (proj1 (Hown p Hp)).
Defined.

Lemma by_id_scoped_to_owner_witness :
  reply (serve Sample.lib GET_postings_id Sample.bob_reads_missing Sample.populated)
  = Some (not_found GET_postings_id) /\
  reply (serve Sample.lib GET_postings_id Sample.bob_reads_posting Sample.populated)
  = reply (serve Sample.lib GET_postings_id Sample.bob_reads_missing Sample.populated) /\
  reply (serve Sample.lib GET_postings_id Cases.alice_reads_malformed Sample.populated)
  = None.
Proof.
  destruct (by_id_scoped_to_owner Sample.lib GET_postings_id
              Sample.bob_reads_missing Sample.populated Sample.bob eq_refl
              ltac:(vm_compute; reflexivity))
    as (_ & Hvalid & _).
  destruct (Hvalid "ffffffffffffffffffffffff" ltac:(vm_compute; reflexivity))
    as (H404 & _ & _ & Hsame).
  destruct (by_id_scoped_to_owner Sample.lib GET_postings_id
              Cases.alice_reads_malformed Sample.populated Sample.alice eq_refl
              ltac:(vm_compute; reflexivity))
    as (Hmalformed & _).
  split; [| split].
  - apply H404. vm_compute. reflexivity.
  - apply (Hsame Sample.bob_reads_posting Sample.populated Sample.bob
             Sample.posting_id);
      vm_compute; reflexivity.
  - apply Hmalformed. vm_compute. reflexivity.
Defined.

(** C2, as stated, fails: alice, whose token is valid, reads by the id
    [abc], which no document has; the query rejects on the cast of the
    id and the reply is not the 404 of the route: nothing is sent. *)
Lemma malformed_id_gets_no_404 :
  let req := Cases.alice_reads_malformed in
  let s' := serve Sample.lib GET_postings_id req Sample.populated in
  authenticated Sample.lib req Sample.populated = Some Sample.alice /\
  id_exists GET_postings_id req Sample.populated = false /\
  visible GET_postings_id req "alice" Sample.populated = false /\
  reply s' = None /\
  reply s' <> Some (not_found GET_postings_id).
Proof.
  intros req s'.
  assert (Hreply : reply s' = None) by (vm_compute; reflexivity).
  compute_each.
  rewrite Hreply. discriminate.
Qed.







Lemma login_returns_creation_token_witness :
  reply (serve Sample.lib POST_users_userName Sample.login_alice
           (serve_all Sample.lib Sample.meanwhile
              (serve Sample.lib POST_users Sample.signup_alice Sample.empty)))
  = Some (200%Z, PLogin "alice" (User.accessToken Sample.alice)) /\
  String.length (User.accessToken Sample.alice) = 256.
Proof.
  destruct (login_returns_creation_token Sample.lib Sample.signup_alice
              Sample.login_alice Sample.empty Sample.alice Sample.meanwhile
              ltac:(vm_compute; reflexivity) eq_refl
              ltac:(vm_compute; reflexivity) ltac:(vm_compute; reflexivity))
    as (_ & Hreply & _).
  split; [exact Hreply | vm_compute; reflexivity].
Defined.

Lemma login_failure_uniform_witness :
  reply (serve Sample.lib POST_users_userName Sample.login_nobody Sample.two_users)
  = Some (401%Z, PNotFound) /\
  reply (serve Sample.lib POST_users_userName Sample.login_alice_wrong Sample.two_users)
  = Some (401%Z, PNotFound) /\
  reply (serve Sample.lib POST_users_userName Cases.login_alice_number Sample.two_users)
  = None.
Proof.
  split; [| split].
  - apply (proj1 (login_failure_uniform Sample.lib Sample.login_nobody
                    Sample.two_users ltac:(vm_compute; reflexivity))).
    left. vm_compute. reflexivity.
  - apply (proj1 (login_failure_uniform Sample.lib Sample.login_alice_wrong
                    Sample.two_users ltac:(vm_compute; reflexivity))).
    right. exists Sample.alice. split; vm_compute; reflexivity.
  - apply (proj2 (login_failure_uniform Sample.lib Cases.login_alice_number
                    Sample.two_users ltac:(vm_compute; reflexivity))
             Sample.alice);
      vm_compute; reflexivity.
Defined.

(** C7, as stated, fails on a password that is a number: it is supplied
    (truthy), and under a name that no user has the reply is the 401;
    under the name of alice the comparison of a number with her hash
    throws and nothing is sent, so the two replies differ and tell that
    alice exists. *)
Lemma number_password_reveals_name :
  let known := serve Sample.lib POST_users_userName Cases.login_alice_number
                 Sample.two_users in
  let unknown := serve Sample.lib POST_users_userName Cases.login_nobody_number
                   Sample.two_users in
  field (body Cases.login_alice_number) "password"
  = field (body Cases.login_nobody_number) "password" /\
  truthy (field (body Cases.login_alice_number) "password") = true /\
  existsb (user_name_is "alice") (users Sample.two_users) = true /\
  existsb (user_name_is "nobody") (users Sample.two_users) = false /\
  reply unknown = Some (401%Z, PNotFound) /\
  reply known = None /\
  reply known <> reply unknown.
Proof.
  intros known unknown.
  assert (Hk : reply known = None) by (vm_compute; reflexivity).
  assert (Hu : reply unknown = Some (401%Z, PNotFound)) by (vm_compute; reflexivity).
  compute_each.
  rewrite Hk, Hu. discriminate.
Qed.



Lemma update_keeps_identity_witness :
  let q := spec_merge_posting Sample.alice_moves_stage (Sample.clock 2)
             Sample.the_posting in
  reply (serve Sample.lib PUT_postings_id Sample.alice_moves_stage Sample.populated)
  = Some (200%Z, PPosting q) /\
  Posting.createdAt q = Posting.createdAt Sample.the_posting /\
  Posting.userName q = "alice" /\
  Posting.stage q <> Posting.stage Sample.the_posting.
Proof.
  intros q.
  assert (Hreply : reply (serve Sample.lib PUT_postings_id Sample.alice_moves_stage
                            Sample.populated) = Some (200%Z, PPosting q))
    by (vm_compute; reflexivity).
  destruct (update_keeps_identity Sample.lib Sample.alice_moves_stage
              Sample.populated Sample.alice Sample.the_posting q
              ltac:(vm_compute; reflexivity) sample_populated_unique
              ltac:(vm_compute; reflexivity) Hreply)
    as (_ & Hcreated & Howner & _).
  split; [exact Hreply |]. split; [exact Hcreated |]. split.
  - rewrite Howner. vm_compute. reflexivity.
  - vm_compute. discriminate.
Defined.

Lemma login_without_password_witness :
  reply (serve Sample.lib POST_users_userName Sample.login_alice_no_password
           Sample.populated)
  = Some (200%Z, PError "password missing in the body of request") /\
  trace (serve Sample.lib POST_users_userName Sample.login_alice_no_password
           Sample.populated)
  = [UserFindOne (ByName "alice");
     CompareSync JUndefined (User.password Sample.alice)].
Proof.
  destruct (login_without_password Sample.lib Sample.login_alice_no_password
              Sample.populated ltac:(vm_compute; reflexivity))
    as (Hreply & Htrace & _).
  split; [exact Hreply |]. rewrite Htrace. vm_compute. reflexivity.
Defined.

(** C10, as stated, fails: a login without a password under a name that
    no user has is answered 200 with the error body and looks the user
    up, but never calls the hash comparison, there being no stored hash
    to compare with. *)
Lemma login_without_password_no_comparison :
  let s' := serve Sample.lib POST_users_userName Sample.login_nobody_no_password
              Sample.populated in
  truthy (field (body Sample.login_nobody_no_password) "password") = false /\
  reply s' = Some (200%Z, PError "password missing in the body of request") /\
  trace s' = [UserFindOne (ByName "nobody")] /\
  existsb is_compare (trace s') = false /\
  ~ (exists s hash, In (CompareSync s hash) (trace s')).
Proof.
  intros s'.
  assert (Htrace : trace s' = [UserFindOne (ByName "nobody")])
    by (vm_compute; reflexivity).
  repeat split; try (vm_compute; reflexivity).
  intros (pw & hash & Hin). rewrite Htrace in Hin.
  destruct Hin as [Heq | []]. discriminate Heq.
Qed.

(** * Further properties *)

(** ** The regular expression of the email validator *)

Lemma string_app_cons (c : ascii) (s t : string) :
  (String c s ++ t)%string = String c (s ++ t).
Proof. reflexivity. Qed.

Lemma string_app_nil_l (s : string) : (EmptyString ++ s)%string = s.
Proof. reflexivity. Qed.

Lemma string_app_nil_r (s : string) : (s ++ "")%string = s.
Proof.
  induction s as [|c s IH]; [reflexivity |].
  now rewrite string_app_cons, IH.
Qed.

Lemma string_app_assoc (s t u : string) :
  ((s ++ t) ++ u)%string = (s ++ (t ++ u))%string.
Proof.
  induction s as [|c s IH]; [reflexivity |].
  now rewrite !string_app_cons, IH.
Qed.

Lemma string_app_eq_nil (s t : string) :
  (s ++ t)%string = EmptyString -> s = EmptyString /\ t = EmptyString.
Proof. destruct s; [auto | rewrite string_app_cons; discriminate]. Qed.

Lemma nullable_Matches (r : regex) :
  nullable r = true <-> Matches r EmptyString.
Proof.
  split.
  - induction r; cbn; intros H; try discriminate H.
    + constructor.
    + apply andb_prop in H as [H1 H2].
      change EmptyString with (EmptyString ++ EmptyString)%string.
      constructor; auto.
    + apply orb_prop in H as [H | H]; [apply MAltL | apply MAltR]; auto.
    + constructor.
  - intros H. remember EmptyString as s eqn:Hs.
    induction H; cbn; try reflexivity; try discriminate Hs.
    + apply string_app_eq_nil in Hs as [-> ->].
      now rewrite IHMatches1, IHMatches2.
    + now rewrite IHMatches.
    + rewrite IHMatches by assumption. apply orb_true_r.
Qed.

Lemma Matches_star_cons (r : regex) (c : ascii) (s : string) :
  Matches (Star r) (String c s) ->
  exists s1 s2, s = (s1 ++ s2)%string /\
    Matches r (String c s1) /\ Matches (Star r) s2.
Proof.
  intros H. remember (Star r) as r' eqn:Hr. remember (String c s) as t eqn:Ht.
  revert s Ht.
  induction H; intros s0 Ht; try discriminate Hr; try discriminate Ht.
  injection Hr as ->.
  destruct s1 as [|c1 s1]; rewrite ?string_app_cons, ?string_app_nil_l in Ht.
  - now apply IHMatches2.
  - injection Ht as Hc Hs. subst c1 s0. exists s1, s2. auto.
Qed.

Lemma deriv_Matches (r : regex) (c : ascii) (s : string) :
  Matches (deriv c r) s <-> Matches r (String c s).
Proof.
  revert s. induction r as [| |p|r1 IH1 r2 IH2|r1 IH1 r2 IH2|r IH]; intros s; cbn.
  - split; intros H; inversion H.
  - split; intros H; inversion H.
  - destruct (p c) eqn:Hp; split; intros H; inversion H; subst.
    + now constructor.
    + constructor.
    + congruence.
  - assert (Hseq : Matches (Seq (deriv c r1) r2) s ->
                   Matches (Seq r1 r2) (String c s)).
    { intros H. inversion H; subst.
      rewrite <- string_app_cons. constructor; [now apply IH1 | assumption]. }
    split.
    + intros H. destruct (nullable r1) eqn:Hn; [| now apply Hseq].
      inversion H; subst; [now apply Hseq |].
      change (String c s) with (EmptyString ++ String c s)%string.
      constructor; [now apply nullable_Matches | now apply IH2].
    + intros H. inversion H as [| |? ? t1 t2 Ht1 Ht2 [Hr1 Hr2] Heq| | | |]; subst.
      destruct t1 as [|c1 t1];
        rewrite ?string_app_cons, ?string_app_nil_l in Heq.
      * subst t2. apply nullable_Matches in Ht1. rewrite Ht1.
        apply MAltR. now apply IH2.
      * injection Heq as Hc Hs. subst c1 s.
        assert (Hd : Matches (Seq (deriv c r1) r2) (t1 ++ t2))
          by (constructor; [now apply IH1 | assumption]).
        destruct (nullable r1); [now apply MAltL | assumption].
  - split; intros H; inversion H; subst.
    + apply MAltL. now apply IH1.
    + apply MAltR. now apply IH2.
    + apply MAltL. now apply IH1.
    + apply MAltR. now apply IH2.
  - split.
    + intros H. inversion H; subst.
      rewrite <- string_app_cons.
      apply MStarApp; [now apply IH | assumption].
    + intros H. apply Matches_star_cons in H as (s1 & s2 & -> & H1 & H2).
      constructor; [now apply IH | assumption].
Qed.

Lemma regex_test_Matches (r : regex) (s : string) :
  regex_test r s = true <-> Matches r s.
Proof.
  revert r. induction s as [|c s IH]; intros r; cbn.
  - apply nullable_Matches.
  - rewrite IH. apply deriv_Matches.
Qed.

Lemma Matches_Seq_iff (r1 r2 : regex) (s : string) :
  Matches (Seq r1 r2) s <->
  exists s1 s2, s = (s1 ++ s2)%string /\ Matches r1 s1 /\ Matches r2 s2.
Proof.
  split.
  - intros H. inversion H; subst. eauto.
  - intros (s1 & s2 & -> & H1 & H2). now constructor.
Qed.

Lemma Matches_Class_iff (p : ascii -> bool) (s : string) :
  Matches (Class p) s <-> exists c, s = String c EmptyString /\ p c = true.
Proof.
  split.
  - intros H. inversion H; subst. eauto.
  - intros (c & -> & Hc). now constructor.
Qed.

Lemma Matches_Star_Class (p : ascii -> bool) (s : string) :
  Matches (Star (Class p)) s <-> string_forallb p s = true.
Proof.
  split.
  - intros H. remember (Star (Class p)) as r eqn:Hr.
    induction H; try discriminate Hr; [reflexivity |].
    injection Hr as ->. inversion H; subst.
    rewrite string_app_cons, string_app_nil_l. cbn.
    rewrite IHMatches2 by reflexivity.
    match goal with Hc : p _ = true |- _ => now rewrite Hc end.
  - induction s as [|c s IH]; cbn; intros H; [constructor |].
    apply andb_prop in H as [Hc Hs].
    change (String c s) with (String c EmptyString ++ s)%string.
    constructor; [now constructor | now apply IH].
Qed.

Lemma Matches_Plus_Class (p : ascii -> bool) (s : string) :
  Matches (Plus (Class p)) s <->
  s <> EmptyString /\ string_forallb p s = true.
Proof.
  unfold Plus. rewrite Matches_Seq_iff. split.
  - intros (s1 & s2 & -> & H1 & H2).
    apply Matches_Class_iff in H1 as (c & -> & Hc).
    apply Matches_Star_Class in H2.
    rewrite string_app_cons, string_app_nil_l. cbn.
    split; [discriminate | now rewrite Hc, H2].
  - intros [Hne H]. destruct s as [|c s]; [contradiction |].
    cbn in H. apply andb_prop in H as [Hc Hs].
    exists (String c EmptyString), s. split; [reflexivity |].
    split; [now constructor | now apply Matches_Star_Class].
Qed.

Lemma Matches_char (c : ascii) (s : string) :
  Matches (Class (Ascii.eqb c)) s <-> s = String c EmptyString.
Proof.
  rewrite Matches_Class_iff. split.
  - intros (c' & -> & Hc). apply Ascii.eqb_eq in Hc. now subst.
  - intros ->. exists c. split; [reflexivity | apply Ascii.eqb_refl].
Qed.

(** X1.  The validator of [email] accepts exactly the strings of the
    form [local@domain.tld] in which [local], [domain] and [tld] are
    non-empty and hold neither white space nor [@]. *)
Theorem email_validator_shape (v : string) :
  email_validator v = true <-> email_shape v.
Proof.
  unfold email_validator, email_shape, plain.
  rewrite regex_test_Matches. unfold email_regex. split.
  - intros H.
    apply Matches_Seq_iff in H as (l & r1 & -> & Hl & H).
    apply Matches_Seq_iff in H as (at_ & r2 & -> & Hat & H).
    apply Matches_Seq_iff in H as (d & r3 & -> & Hd & H).
    apply Matches_Seq_iff in H as (dot & t & -> & Hdot & Ht).
    apply Matches_char in Hat, Hdot. subst at_ dot.
    apply Matches_Plus_Class in Hl, Hd, Ht.
    exists l, d, t. auto.
  - intros (l & d & t & -> & Hl & Hd & Ht).
    apply Matches_Plus_Class in Hl, Hd, Ht.
    repeat (apply MSeq; [try assumption; now apply Matches_char |]).
    assumption.
Qed.

Section Further.

Variable lib : library.

#[local] Arguments toHex : simpl never.
#[local] Arguments seq : simpl never.
#[local] Arguments List.map : simpl never.
#[local] Arguments castString : simpl never.
#[local] Arguments castNullable : simpl never.
#[local] Arguments truthy : simpl never.
#[local] Arguments field : simpl never.
#[local] Arguments String.eqb : simpl never.
#[local] Arguments email_validator : simpl never.
#[local] Arguments required : simpl never.
#[local] Arguments User_validate : simpl never.
#[local] Arguments Posting_validate : simpl never.
#[local] Arguments Contact_validate : simpl never.
#[local] Arguments castObjectId : simpl never.
#[local] Arguments canonical : simpl never.
#[local] Arguments objectId : simpl never.

Ltac run_handler :=
  unfold serve, app, handler, users_create, users_login, authenticateUser,
    postings_create, postings_list, postings_update, postings_get,
    postings_delete, contacts_list, contacts_create, contacts_update,
    contacts_delete, root, postings_merge, req_user,
    User_findOne, User_new, User_save, Posting_find, Posting_findOne,
    Posting_findOneAndDelete, Posting_new, Posting_save, Contact_find,
    Contact_findOne, Contact_findOneAndDelete, Contact_new, Contact_save,
    bcrypt_hashSync, bcrypt_compareSync, randomBytes, new_ObjectId, Date_now,
    res_json, res_send, res_status, raise_if, when, emit, try_catch,
    bind, ret, throw, gets, modify in *.

(** ** What the handlers read and what they leave alone *)

(** X2.  A handler depends on the body only through the fields it
    reads: setting any other key of the body to any value gives the
    same state and the same reply.  So [POST /postings] ignores a
    [stage], [createdAt] or [_id] of the body, and an update ignores
    [userName], [createdAt] and [lastStageChange]. *)
Theorem body_fields_read
    (r : route) (req : request) (s : state) (k : string) (v : jsval) :
  ~ In k (reads r) ->
  serve lib r (with_body (<[k := v]> (body req)) req) s = serve lib r req s.
Proof.
  intros Hk.
  assert (Hne : forall k', In k' (reads r) -> k <> k')
    by (intros k' Hin ->; contradiction).
  unfold serve. destruct (resource_route r) eqn:Hr.
  - rewrite !(app_resource_route lib r _ _ Hr), !authenticateUser_run.
    change (authenticated lib (with_body (<[k := v]> (body req)) req) s)
      with (authenticated lib req s).
    change (after_lookup (with_body (<[k := v]> (body req)) req) s)
      with (after_lookup req s).
    destruct (authenticated lib req s) as [u|]; [| reflexivity].
    destruct r; try discriminate Hr; cbn [handler];
      unfold postings_create, postings_update, contacts_create, contacts_update;
      cbn [body set_user with_body];
      rewrite ?field_insert_ne by (apply Hne; cbn; tauto); reflexivity.
  - destruct r; try discriminate Hr; cbn [app];
      unfold users_create, users_login;
      cbn [body with_body];
      rewrite ?field_insert_ne by (apply Hne; cbn; tauto); reflexivity.
Qed.

(** X3.  A login, the two list routes, the reading of one posting and
    [GET /] never change the store, whatever the request: users,
    postings and contacts are the same afterwards, and neither the
    clock nor the random source nor the id generator was used. *)
Theorem read_only_routes_keep_store (r : route) (req : request) (s : state) :
  read_only r = true ->
  users (serve lib r req s) = users s /\
  postings (serve lib r req s) = postings s /\
  contacts (serve lib r req s) = contacts s /\
  counters (serve lib r req s) = counters s.
Proof.
  intros Hr. unfold counters.
  destruct r; try discriminate Hr; run_handler; cbn.
  all: repeat (case_match; cbn in *; simplify_eq).
  all: repeat split.
Qed.

(** ** Listing *)

(** X4.  [GET /postings/user] always answers 200, with the stored
    postings whose [userName] is the name of the caller, in storage
    order: a posting is in the reply exactly when it is stored and
    belongs to the caller, and a caller without postings gets the empty
    list. *)
Theorem postings_list_mine (req : request) (s : state) (u : User.t) :
  authenticated lib req s = Some u ->
  let mine := List.filter (posting_owner_is (User.name u)) (postings s) in
  reply (serve lib GET_postings_user req s) = Some (200%Z, PPostings mine) /\
  (forall p, In p mine <-> In p (postings s) /\ Posting.userName p = User.name u) /\
  ((forall p, In p (postings s) -> Posting.userName p <> User.name u) -> mine = []).
Proof.
  intros Hu mine.
  rewrite (serve_authenticated lib GET_postings_user req s u eq_refl Hu).
  split; [reflexivity |]. split.
  - intros p. unfold mine. rewrite filter_In. unfold posting_owner_is.
    now rewrite String.eqb_eq.
  - intros Hnone. unfold mine.
    induction (postings s) as [|p l IH]; [reflexivity |].
    cbn. unfold posting_owner_is at 1.
    destruct (String.eqb_spec (Posting.userName p) (User.name u)) as [Heq | _].
    + exfalso. apply (Hnone p); [now left | exact Heq].
    + apply IH. intros q Hq. apply Hnone. now right.
Qed.

(** X5.  [GET /contacts] does the same for contacts. *)
Theorem contacts_list_mine (req : request) (s : state) (u : User.t) :
  authenticated lib req s = Some u ->
  let mine := List.filter (contact_owner_is (User.name u)) (contacts s) in
  reply (serve lib GET_contacts req s) = Some (200%Z, PContacts mine) /\
  (forall c, In c mine <-> In c (contacts s) /\ Contact.userName c = User.name u) /\
  ((forall c, In c (contacts s) -> Contact.userName c <> User.name u) -> mine = []).
Proof.
  intros Hu mine.
  rewrite (serve_authenticated lib GET_contacts req s u eq_refl Hu).
  split; [reflexivity |]. split.
  - intros c. unfold mine. rewrite filter_In. unfold contact_owner_is.
    now rewrite String.eqb_eq.
  - intros Hnone. unfold mine.
    induction (contacts s) as [|c l IH]; [reflexivity |].
    cbn. unfold contact_owner_is at 1.
    destruct (String.eqb_spec (Contact.userName c) (User.name u)) as [Heq | _].
    + exfalso. apply (Hnone c); [now left | exact Heq].
    + apply IH. intros q Hq. apply Hnone. now right.
Qed.

(** ** Creation *)

(** X6.  [POST /postings] and [POST /contacts] with a required field
    that is missing or falsy are answered 400 with the message of the
    route, and that is all they do besides the lookup of the caller:
    nothing is stored, no id, time or random byte is taken.  400 is
    answered in no other case. *)
Theorem create_rejects_missing_field
    (r : route) (req : request) (s : state) (u : User.t) :
  r = POST_postings \/ r = POST_contacts ->
  authenticated lib req s = Some u ->
  let s' := serve lib r req s in
  ((exists k, In k (required_fields r) /\ truthy (field (body req) k) = false) ->
     reply s' = Some (400%Z, PError (missing_message r)) /\
     users s' = users s /\ postings s' = postings s /\
     contacts s' = contacts s /\ counters s' = counters s /\
     trace s' = [UserFindOne (ByAccessToken (authorization req))]) /\
  (status_of (reply s') = Some 400%Z ->
     exists k, In k (required_fields r) /\ truthy (field (body req) k) = false).
Proof.
  intros Hr Hu s'. subst s'.
  assert (Hres : resource_route r = true) by (destruct Hr as [-> | ->]; reflexivity).
  rewrite (serve_authenticated lib r req s u Hres Hu). unfold counters.
  split.
  - intros (k & Hin & Hk).
    destruct Hr as [-> | ->]; cbn in Hin;
      destruct Hin as [<- | [<- | []]]; run_handler; cbn; rewrite Hk; cbn;
      rewrite ?orb_true_r; cbn; repeat split.
  - destruct Hr as [-> | ->]; run_handler; cbn.
    + destruct (truthy (field (body req) "jobTitle")) eqn:H1;
        [| intros _; exists "jobTitle"; cbn; auto].
      destruct (truthy (field (body req) "company")) eqn:H2;
        [| intros _; exists "company"; cbn; auto].
      cbn. repeat (case_match; cbn in *; simplify_eq); discriminate.
    + destruct (truthy (field (body req) "name")) eqn:H1;
        [| intros _; exists "name"; cbn; auto].
      destruct (truthy (field (body req) "company")) eqn:H2;
        [| intros _; exists "company"; cbn; auto].
      cbn. repeat (case_match; cbn in *; simplify_eq); discriminate.
Qed.

(** X7.  [POST /users] with [user], [email] or [password] missing or
    falsy is answered 400 with the message of the route before anything
    else happens: no hash is computed, no random byte drawn, no call
    made to the store. *)
Theorem users_create_rejects_missing_field (req : request) (s : state) (k : string) :
  In k (required_fields POST_users) ->
  truthy (field (body req) k) = false ->
  let s' := serve lib POST_users req s in
  reply s' = Some (400%Z, PError (missing_message POST_users)) /\
  users s' = users s /\ postings s' = postings s /\
  contacts s' = contacts s /\ counters s' = counters s /\
  trace s' = [].
Proof.
  intros Hin Hk s'. subst s'. unfold counters. cbn in Hin.
  destruct Hin as [<- | [<- | [<- | []]]]; run_handler; cbn; rewrite Hk; cbn;
    rewrite ?orb_true_r; cbn; repeat split.
Qed.

(** What a reply 201 of [POST /postings] tells about the state. *)
Lemma postings_create_created (req : request) (s : state) (u : User.t) (p : Posting.t) :
  authenticated lib req s = Some u ->
  reply (serve lib POST_postings req s) = Some (201%Z, PPosting p) ->
  p = Posting.mk (objectId lib (minted s))
        (castString (field (body req) "jobTitle"))
        (castString (field (body req) "company"))
        Posting.stage_default (clock lib (ticks s)) (User.name u)
        (clock lib (S (ticks s))) /\
  postings (serve lib POST_postings req s) = postings s ++ [p] /\
  users (serve lib POST_postings req s) = users s /\
  contacts (serve lib POST_postings req s) = contacts s /\
  counters (serve lib POST_postings req s)
  = (S (S (ticks s)), drawn s, S (minted s)) /\
  existsb (posting_id_is (Posting._id p)) (postings s) = false.
Proof.
  intros Hu. rewrite (serve_authenticated lib POST_postings req s u eq_refl Hu).
  unfold counters. run_handler. cbn.
  destruct (negb _ || negb _); cbn; [discriminate |].
  destruct (Posting_validate _); cbn; [discriminate |].
  destruct (existsb _ (postings s)) eqn:Hfresh; cbn; [discriminate |].
  intros Heq. injection Heq as <-. repeat split. exact Hfresh.
Qed.

Lemma authenticated_same_users (req req' : request) (s s' : state) :
  users s' = users s ->
  authorization req' = authorization req ->
  authenticated lib req' s' = authenticated lib req s.
Proof. intros Hus Hau. unfold authenticated. now rewrite Hus, Hau. Qed.

(** X8.  A posting that [POST /postings] answered 201 with can be read
    back: for the same caller, [GET /postings/:id] with its [_id]
    answers 200 with the very same document, and [GET /postings/user]
    lists it.  The document has the stage [applied], whatever the body
    said. *)
Theorem posting_create_then_read
    (req req' : request) (s : state) (u : User.t) (p : Posting.t) :
  authenticated lib req s = Some u ->
  reply (serve lib POST_postings req s) = Some (201%Z, PPosting p) ->
  authorization req' = authorization req ->
  params_id req' = Posting._id p ->
  let s1 := serve lib POST_postings req s in
  reply (serve lib GET_postings_id req' s1) = Some (200%Z, PPosting p) /\
  (exists l, reply (serve lib GET_postings_user req' s1) = Some (200%Z, PPostings l)
             /\ In p l) /\
  Posting.stage p = "applied".
Proof.
  intros Hu Hreply Hauth Hid s1.
  destruct (postings_create_created req s u p Hu Hreply)
    as (Hp & Hstore & Husers & _ & _ & Hfresh).
  fold s1 in Hstore, Husers.
  assert (Hu1 : authenticated lib req' s1 = Some u)
    by (rewrite (authenticated_same_users req req' s s1 Husers Hauth); exact Hu).
  assert (Hown : Posting.userName p = User.name u) by (rewrite Hp; reflexivity).
  assert (Hfind : List.find (posting_matches (params_id req') (User.name u))
                    (postings s1) = Some p).
  { rewrite Hstore, Hid, find_app_None.
    - cbn. unfold posting_matches, posting_id_is, posting_owner_is.
      now rewrite Hown, !String.eqb_refl.
    - apply existsb_false_find. now apply existsb_andb_false. }
  assert (Hcast : castObjectId (params_id req') = Some (params_id req')).
  { apply castObjectId_canonical. rewrite Hid, Hp. apply objectId_canonical. }
  split; [| split].
  - rewrite (serve_authenticated lib GET_postings_id req' s1 u eq_refl Hu1).
    run_handler. cbn. rewrite Hcast. cbn. now rewrite Hfind.
  - rewrite (serve_authenticated lib GET_postings_user req' s1 u eq_refl Hu1).
    eexists. split; [reflexivity |].
    apply filter_In. split.
    + cbn. rewrite Hstore. apply in_app_iff. right. now left.
    + unfold posting_owner_is. rewrite Hown. apply String.eqb_refl.
  - rewrite Hp. reflexivity.
Qed.

(** What a reply 201 of [POST /contacts] tells about the state. *)
Lemma contacts_create_created (req : request) (s : state) (u : User.t) (c : Contact.t) :
  authenticated lib req s = Some u ->
  reply (serve lib POST_contacts req s) = Some (201%Z, PContact c) ->
  c = Contact.mk (objectId lib (minted s))
        (castString (field (body req) "name"))
        (castString (field (body req) "company"))
        (match field (body req) "notes" with
         | JUndefined => Some ""
         | _ => castNullable (field (body req) "notes")
         end)
        (User.name u) /\
  contacts (serve lib POST_contacts req s) = contacts s ++ [c] /\
  users (serve lib POST_contacts req s) = users s /\
  postings (serve lib POST_contacts req s) = postings s /\
  existsb (contact_id_is (Contact._id c)) (contacts s) = false /\
  Contact_validate c = None.
Proof.
  intros Hu. rewrite (serve_authenticated lib POST_contacts req s u eq_refl Hu).
  run_handler. cbn.
  destruct (negb _ || negb _); cbn; [discriminate |].
  destruct (Contact_validate _) eqn:Hval; cbn; [discriminate |].
  destruct (existsb _ (contacts s)) eqn:Hfresh; cbn; [discriminate |].
  intros Heq. injection Heq as <-. repeat split; assumption.
Qed.

(** X9.  The [notes] of a contact that [POST /contacts] answered 201
    with: the empty string when the body has no [notes], [null] when it
    has [null], and otherwise the (cast) value of the body, the empty
    string included.  Its [name] and [company] are never empty. *)
Theorem contact_created_notes (req : request) (s : state) (u : User.t) (c : Contact.t) :
  authenticated lib req s = Some u ->
  reply (serve lib POST_contacts req s) = Some (201%Z, PContact c) ->
  let notes := field (body req) "notes" in
  (notes = JUndefined -> Contact.notes c = Some "") /\
  (notes = JNull -> Contact.notes c = None) /\
  (forall str, notes = JStr str -> Contact.notes c = Some str) /\
  Contact.name c <> "" /\ Contact.company c <> "" /\
  Contact.userName c = User.name u.
Proof.
  intros Hu Hreply notes.
  destruct (contacts_create_created req s u c Hu Hreply) as (Hc & _ & _ & _ & _ & Hval).
  assert (Hne : Contact.name c <> "" /\ Contact.company c <> "").
  { unfold Contact_validate, required in Hval. cbn in Hval.
    destruct (String.eqb_spec (Contact.name c) ""); [discriminate Hval |].
    destruct (String.eqb_spec (Contact.company c) ""); [discriminate Hval |].
    auto. }
  destruct Hne as [Hn1 Hn2]. rewrite Hc in Hn1, Hn2 |- *.
  cbn [Contact.name Contact.company Contact.notes Contact.userName] in *.
  subst notes.
  split; [intros ->; reflexivity |]. split; [intros ->; reflexivity |].
  split; [intros str ->; reflexivity |]. auto.
Qed.

(** ** Deletion *)

Lemma removed_gone {A} (key : A -> string) (own : A -> bool) (id : string)
    (l : list A) (p : A) :
  NoDup (List.map key l) ->
  List.find (has_key_and key own id) l = Some p ->
  existsb (has_key key id) (remove_first (has_key_and key own id) l) = false.
Proof.
  induction l as [|x l IH]; [discriminate |].
  rewrite map_cons. intros Hnd Hfind. apply NoDup_cons in Hnd as [Hx Hnd].
  assert (Hfresh : has_key key id x = true -> existsb (has_key key id) l = false).
  { intros Hk. unfold has_key in Hk. apply String.eqb_eq in Hk.
    destruct (existsb (has_key key id) l) eqn:Hex; [| reflexivity].
    apply existsb_exists in Hex as (y & Hy & Hyk).
    unfold has_key in Hyk. apply String.eqb_eq in Hyk.
    exfalso. apply Hx. rewrite Hk, <- Hyk.
    apply list_elem_of_In. now apply in_map. }
  cbn in *. unfold has_key_and at 1. unfold has_key_and at 1 in Hfind.
  destruct (has_key key id x) eqn:Hk; cbn in *.
  - destruct (own x); [now apply Hfresh |].
    destruct (find_some _ _ Hfind) as [Hin Hp].
    apply andb_prop in Hp as [Hp _]. exfalso.
    assert (Hex : existsb (has_key key id) l = true)
      by (apply existsb_exists; eauto).
    rewrite (Hfresh eq_refl) in Hex. discriminate Hex.
  - rewrite Hk. now apply IH.
Qed.

Lemma remove_first_others {A} (f : A -> bool) (l : list A) (p : A) :
  List.find f l = Some p ->
  forall x, In x l -> x <> p -> In x (remove_first f l).
Proof.
  induction l as [|y l IH]; [discriminate |].
  cbn. destruct (f y).
  - intros [= ->] x [-> | Hin] Hne; [contradiction | assumption].
  - intros Hfind x [-> | Hin] Hne; [now left | right; now apply IH].
Qed.

Lemma length_remove_first {A} (f : A -> bool) (l : list A) (p : A) :
  List.find f l = Some p -> S (length (remove_first f l)) = length l.
Proof.
  induction l as [|y l IH]; [discriminate |].
  cbn. destruct (f y); [reflexivity |].
  intros Hfind. cbn. now rewrite IH.
Qed.

(** X10.  [DELETE /postings/:id] on a posting [p] of the caller answers
    200 with [{ success: true }] and removes [p] and nothing else: one
    posting less, every other posting, the users and the contacts as
    before.  Afterwards no posting has that id, so reading, updating
    or deleting it again is answered 404. *)
Theorem posting_delete_removes
    (req : request) (s : state) (u : User.t) (p : Posting.t) :
  authenticated lib req s = Some u ->
  ids_unique s ->
  List.find (posting_matches (params_id req) (User.name u)) (postings s) = Some p ->
  let s' := serve lib DELETE_postings_id req s in
  reply s' = Some (200%Z, PSuccess) /\
  id_exists DELETE_postings_id req s' = false /\
  S (length (postings s')) = length (postings s) /\
  (forall x, In x (postings s) -> x <> p -> In x (postings s')) /\
  users s' = users s /\
  contacts s' = contacts s /\
  (forall r2, by_id_route r2 = true -> on_contacts r2 = false ->
     reply (serve lib r2 req s') = Some (not_found r2)).
Proof.
  intros Hu Huniq Hfind s'.
  pose proof (cast_of_posting req _ s p Huniq Hfind) as Hcast.
  pose proof (castObjectId_Some _ _ Hcast) as Hcan.
  destruct Huniq as [[Hnd _] _].
  assert (Hrun : reply s' = Some (200%Z, PSuccess) /\
                 postings s' = remove_first
                   (posting_matches (params_id req) (User.name u)) (postings s) /\
                 users s' = users s /\ contacts s' = contacts s).
  { subst s'. rewrite (serve_authenticated lib DELETE_postings_id req s u eq_refl Hu).
    run_handler. cbn. rewrite Hcast. cbn. rewrite Hfind. cbn. repeat split. }
  destruct Hrun as (Hreply & Hstore & Husers & Hcontacts).
  assert (Hgone : id_exists DELETE_postings_id req s' = false).
  { unfold id_exists. cbn [on_contacts]. rewrite Hstore.
    exact (removed_gone Posting._id (posting_owner_is (User.name u))
             (params_id req) (postings s) p Hnd Hfind). }
  repeat split; try assumption.
  - rewrite Hstore. now apply length_remove_first with (p := p).
  - rewrite Hstore. now apply remove_first_others.
  - intros r2 Hr2 Hc2.
    assert (Hu' : authenticated lib req s' = Some u)
      by (rewrite (authenticated_same_users req req s s' Husers eq_refl); exact Hu).
    apply (not_visible_run lib r2 req s' u Hr2 Hu' Hcan).
    unfold visible. rewrite Hc2.
    apply existsb_andb_false.
    unfold id_exists in Hgone. cbn [on_contacts] in Hgone. exact Hgone.
Qed.

(** X11.  [DELETE /contacts/:id] on a contact [c] of the caller: the
    same, for contacts. *)
Theorem contact_delete_removes
    (req : request) (s : state) (u : User.t) (c : Contact.t) :
  authenticated lib req s = Some u ->
  ids_unique s ->
  List.find (contact_matches (params_id req) (User.name u)) (contacts s) = Some c ->
  let s' := serve lib DELETE_contacts_id req s in
  reply s' = Some (200%Z, PSuccess) /\
  id_exists DELETE_contacts_id req s' = false /\
  S (length (contacts s')) = length (contacts s) /\
  (forall x, In x (contacts s) -> x <> c -> In x (contacts s')) /\
  users s' = users s /\
  postings s' = postings s /\
  (forall r2, by_id_route r2 = true -> on_contacts r2 = true ->
     reply (serve lib r2 req s') = Some (not_found r2)).
Proof.
  intros Hu Huniq Hfind s'.
  pose proof (cast_of_contact req _ s c Huniq Hfind) as Hcast.
  pose proof (castObjectId_Some _ _ Hcast) as Hcan.
  destruct Huniq as [_ [Hnd _]].
  assert (Hrun : reply s' = Some (200%Z, PSuccess) /\
                 contacts s' = remove_first
                   (contact_matches (params_id req) (User.name u)) (contacts s) /\
                 users s' = users s /\ postings s' = postings s).
  { subst s'. rewrite (serve_authenticated lib DELETE_contacts_id req s u eq_refl Hu).
    run_handler. cbn. rewrite Hcast. cbn. rewrite Hfind. cbn. repeat split. }
  destruct Hrun as (Hreply & Hstore & Husers & Hpostings).
  assert (Hgone : id_exists DELETE_contacts_id req s' = false).
  { unfold id_exists. cbn [on_contacts]. rewrite Hstore.
    exact (removed_gone Contact._id (contact_owner_is (User.name u))
             (params_id req) (contacts s) c Hnd Hfind). }
  repeat split; try assumption.
  - rewrite Hstore. now apply length_remove_first with (p := c).
  - rewrite Hstore. now apply remove_first_others.
  - intros r2 Hr2 Hc2.
    assert (Hu' : authenticated lib req s' = Some u)
      by (rewrite (authenticated_same_users req req s s' Husers eq_refl); exact Hu).
    apply (not_visible_run lib r2 req s' u Hr2 Hu' Hcan).
    unfold visible. rewrite Hc2.
    apply existsb_andb_false.
    unfold id_exists in Hgone. cbn [on_contacts] in Hgone. exact Hgone.
Qed.

(** ** Updates that change nothing *)

Lemma replace_first_same {A} (f : A -> bool) (l : list A) (p : A) :
  List.find f l = Some p -> replace_first f p l = l.
Proof.
  induction l as [|x l IH]; [discriminate |].
  cbn. destruct (f x).
  - now intros [= ->].
  - intros H. now rewrite IH.
Qed.

Lemma overwrite_falsy (v : jsval) (old : string) :
  truthy v = false -> overwrite v old = old.
Proof. unfold overwrite. now intros ->. Qed.

Lemma overwrite_twice (v : jsval) (old : string) :
  overwrite v (overwrite v old) = overwrite v old.
Proof. unfold overwrite. now destruct (truthy v). Qed.

Lemma spec_merge_posting_falsy (req : request) (now : Date) (p : Posting.t) :
  truthy (field (body req) "jobTitle") = false ->
  truthy (field (body req) "company") = false ->
  truthy (field (body req) "stage") = false ->
  spec_merge_posting req now p = p.
Proof.
  intros H1 H2 H3. unfold spec_merge_posting, stage_changes.
  rewrite !overwrite_falsy, H3 by assumption. now destruct p.
Qed.

Lemma spec_merge_contact_falsy (req : request) (c : Contact.t) :
  truthy (field (body req) "name") = false ->
  truthy (field (body req) "company") = false ->
  truthy (field (body req) "notes") = false ->
  spec_merge_contact req c = c.
Proof.
  intros H1 H2 H3. unfold spec_merge_contact, overwrite_nullable.
  rewrite !overwrite_falsy, H3 by assumption. now destruct c.
Qed.

(** X12.  An update whose body has none of the three fields (or has
    them falsy), on a stored document that passes the validation of its
    schema, is answered 200 with the document as it is stored, and the
    store is the same afterwards; for a posting, [lastStageChange]
    included. *)
Theorem update_without_fields (req : request) (s : state) (u : User.t) :
  authenticated lib req s = Some u ->
  ids_unique s ->
  (forall p,
     List.find (posting_matches (params_id req) (User.name u)) (postings s) = Some p ->
     Posting_validate p = None ->
     truthy (field (body req) "jobTitle") = false ->
     truthy (field (body req) "company") = false ->
     truthy (field (body req) "stage") = false ->
     reply (serve lib PUT_postings_id req s) = Some (200%Z, PPosting p) /\
     postings (serve lib PUT_postings_id req s) = postings s /\
     users (serve lib PUT_postings_id req s) = users s /\
     contacts (serve lib PUT_postings_id req s) = contacts s) /\
  (forall c,
     List.find (contact_matches (params_id req) (User.name u)) (contacts s) = Some c ->
     Contact_validate c = None ->
     truthy (field (body req) "name") = false ->
     truthy (field (body req) "company") = false ->
     truthy (field (body req) "notes") = false ->
     reply (serve lib PUT_contacts_id req s) = Some (200%Z, PContact c) /\
     contacts (serve lib PUT_contacts_id req s) = contacts s /\
     users (serve lib PUT_contacts_id req s) = users s /\
     postings (serve lib PUT_contacts_id req s) = postings s).
Proof.
  intros Hu Huniq. split.
  - intros p Hfind Hp H1 H2 H3.
    destruct (postings_update_run lib req s u p Hu Huniq Hfind)
      as (_ & Husers & Hcontacts & Hcase).
    rewrite (spec_merge_posting_falsy req _ p H1 H2 H3), Hp in Hcase.
    destruct Hcase as [Hreply Hstore].
    repeat split; try assumption.
    rewrite Hstore. apply replace_first_same.
    exact (found_by_id req (User.name u) s p Huniq Hfind).
  - intros c Hfind Hc H1 H2 H3.
    destruct (contacts_update_run lib req s u c Hu Huniq Hfind)
      as (_ & Husers & Hpostings & Hcase).
    rewrite (spec_merge_contact_falsy req c H1 H2 H3), Hc in Hcase.
    destruct Hcase as [Hreply Hstore].
    repeat split; try assumption.
    rewrite Hstore. apply replace_first_same.
    exact (found_contact_by_id req (User.name u) s c Huniq Hfind).
Qed.

(** X13.  Sending the same update twice, with a [stage] that is a
    string or is falsy: when [PUT /postings/:id] answered 200 with the
    document [m], the same request again is answered 200 with [m] again
    and leaves the store as the first one left it; in particular the
    second one does not move [lastStageChange]. *)
Theorem posting_update_twice
    (req : request) (s : state) (u : User.t) (p m : Posting.t) :
  authenticated lib req s = Some u ->
  ids_unique s ->
  List.find (posting_matches (params_id req) (User.name u)) (postings s) = Some p ->
  (truthy (field (body req) "stage") = false \/
   exists str, field (body req) "stage" = JStr str) ->
  let s1 := serve lib PUT_postings_id req s in
  reply s1 = Some (200%Z, PPosting m) ->
  reply (serve lib PUT_postings_id req s1) = Some (200%Z, PPosting m) /\
  postings (serve lib PUT_postings_id req s1) = postings s1.
Proof.
  intros Hu Huniq Hfind Hstage s1 Hreply.
  destruct (postings_update_run lib req s u p Hu Huniq Hfind)
    as (_ & Husers & _ & Hcase).
  fold s1 in Husers, Hcase.
  destruct (matched_posting _ _ _ _ Hfind) as (Hin & Hid & Hown).
  set (m0 := spec_merge_posting req (clock lib (ticks s)) p) in *.
  remember (Posting_validate m0) as val eqn:Hval.
  symmetry in Hval.
  destruct val; destruct Hcase as [Hr Hstore]; rewrite Hr in Hreply;
    [discriminate Hreply |].
  injection Hreply as <-.
  assert (Hu1 : authenticated lib req s1 = Some u)
    by (rewrite (authenticated_same_users req req s s1 Husers eq_refl); exact Hu).
  assert (Huniq1 : ids_unique s1) by (apply ids_unique_serve; exact Huniq).
  assert (Hfind1 : List.find (posting_matches (params_id req) (User.name u))
                     (postings s1) = Some m0).
  { rewrite Hstore.
    now destruct (posting_written req s u p m0 Huniq Hfind eq_refl eq_refl). }
  (* a stage that is a string is the stored stage the second time *)
  assert (Hsame : stage_changes (field (body req) "stage") m0 = false).
  { unfold stage_changes. destruct Hstage as [Hf | [str Hstr]].
    - now rewrite Hf.
    - destruct (truthy (field (body req) "stage")) eqn:Ht; [| reflexivity].
      unfold m0. cbn [Posting.stage spec_merge_posting].
      unfold overwrite. rewrite Ht, Hstr. cbn.
      unfold castString. now rewrite String.eqb_refl. }
  assert (Hm1 : spec_merge_posting req (clock lib (ticks s1)) m0 = m0).
  { unfold spec_merge_posting at 1. rewrite Hsame.
    unfold m0 at 2 3 4. cbn [Posting.jobTitle Posting.company Posting.stage
                              spec_merge_posting].
    rewrite !overwrite_twice. reflexivity. }
  destruct (postings_update_run lib req s1 u m0 Hu1 Huniq1 Hfind1)
    as (_ & _ & _ & Hcase1).
  rewrite Hm1, Hval in Hcase1. destruct Hcase1 as [Hr1 Hstore1].
  split; [exact Hr1 |].
  rewrite Hstore1. apply replace_first_same.
  exact (found_by_id req (User.name u) s1 m0 Huniq1 Hfind1).
Qed.

(** ** What the store keeps *)





(** How one request can change the users. *)
Lemma users_step (r : route) (req : request) (s : state) :
  users (serve lib r req s) = users s \/
  exists u,
    r = POST_users /\
    users (serve lib r req s) = users s ++ [u] /\
    reply (serve lib r req s) = Some (201%Z, PUser u) /\
    User_validate u = None /\
    existsb (user_name_is (User.name u)) (users s) = false /\
    existsb (user_email_is (User.email u)) (users s) = false.
Proof.
  destruct r.
  2-12: left; run_handler; cbn;
    now repeat (case_match; cbn in *; simplify_eq).
  run_handler. cbn.
  destruct (negb _ || _ || _); cbn; [now left |].
  destruct (hashSync lib _ _) as [hash|]; cbn; [| now left].
  destruct (User_validate _) eqn:Hval; cbn; [now left |].
  destruct (existsb (user_name_is _) (users s)) eqn:Hname; cbn; [now left |].
  destruct (existsb (user_email_is _) (users s)) eqn:Hemail; cbn; [now left |].
  right. eexists. repeat split; eassumption.
Qed.





(** X15.  Only [POST /users] changes the users, and only by appending
    the one record it answers 201 with: no request removes or rewrites
    a stored user. *)
Theorem users_change_only_by_signup (r : route) (req : request) (s : state) :
  let s' := serve lib r req s in
  (r <> POST_users -> users s' = users s) /\
  (users s' = users s \/
   exists u, users s' = users s ++ [u] /\ reply s' = Some (201%Z, PUser u)) /\
  (forall u, In u (users s) -> In u (users s')) /\
  (forall n u, List.find (user_name_is n) (users s) = Some u ->
               List.find (user_name_is n) (users s') = Some u).
Proof.
  intros s'. subst s'.
  destruct (users_step r req s) as [Hsame | (u & Hr & Happ & Hreply & _)].
  - rewrite Hsame. repeat split; auto.
  - rewrite Happ. repeat split.
    + intros Hne. contradiction.
    + right. eauto.
    + intros x Hx. apply in_app_iff. now left.
    + intros n x Hx. now apply find_app_Some.
Qed.

(** ** Signing up, then logging in *)

(** What a reply 201 of [POST /users] tells about the password. *)
Lemma users_create_hashed (req : request) (s : state) (u : User.t) :
  reply (serve lib POST_users req s) = Some (201%Z, PUser u) ->
  truthy (field (body req) "password") = true /\
  hashSync lib (field (body req) "password")
    (List.map (entropy lib) (seq (drawn s) 16)) = Some (User.password u) /\
  User.name u = castString (field (body req) "user").
Proof.
  run_handler. cbn.
  destruct (truthy (field (body req) "user")); cbn; [| discriminate].
  destruct (truthy (field (body req) "email")); cbn; [| discriminate].
  destruct (truthy (field (body req) "password")); cbn; [| discriminate].
  destruct (hashSync lib _ _) as [hash|]; cbn; [| discriminate].
  destruct (User_validate _); cbn; [discriminate |].
  destruct (existsb (user_name_is _) (users s)); cbn; [discriminate |].
  destruct (existsb (user_email_is _) (users s)); cbn; [discriminate |].
  intros Heq. injection Heq as <-. repeat split.
Qed.

(** X16.  Sign-up and login fit together.  With a bcrypt whose
    comparison accepts a password against the hashes made of it, once
    [POST /users] has answered 201 for a name and a password, a login
    under that name with that password is answered 200 with the token of
    the 201 reply, whatever requests were served in between. *)
Theorem signup_then_login
    (creq lreq : request) (s : state) (u : User.t)
    (between : list (route * request)) :
  bcrypt_sound lib ->
  reply (serve lib POST_users creq s) = Some (201%Z, PUser u) ->
  params_userName lreq = castString (field (body creq) "user") ->
  field (body lreq) "password" = field (body creq) "password" ->
  reply (serve lib POST_users_userName lreq
           (serve_all lib between (serve lib POST_users creq s)))
  = Some (200%Z, PLogin (User.name u) (User.accessToken u)).
Proof.
  intros Hsound Hcreated Hname Hpw.
  destruct (users_create_created lib creq s u Hcreated) as (Husers & Hfresh & _).
  destruct (users_create_hashed creq s u Hcreated) as (Htruthy & Hhash & Hn).
  set (s1 := serve_all lib between (serve lib POST_users creq s)).
  assert (Hfind : List.find (user_name_is (User.name u)) (users s1) = Some u).
  { subst s1.
    destruct (users_grow_all lib between (serve lib POST_users creq s)) as [l ->].
    rewrite Husers. apply find_app_Some.
    rewrite find_app_None by now apply existsb_false_find.
    cbn. unfold user_name_is. now rewrite String.eqb_refl. }
  run_handler. cbn.
  change (user_matches lib (ByName ?n)) with (user_name_is n).
  rewrite Hpw, Htruthy, Hname, <- Hn. cbn. rewrite Hfind. cbn.
  rewrite (Hsound _ _ _ Hhash). reflexivity.
Qed.

(** ** What an update can never change *)

Lemma keyed_inj {A} (key : A -> string) (l : list A) (x y : A) :
  NoDup (List.map key l) -> In x l -> In y l -> key x = key y -> x = y.
Proof.
  induction l as [|z l IH]; [contradiction |].
  rewrite map_cons. intros Hnd Hx Hy Hk. apply NoDup_cons in Hnd as [Hz Hnd].
  destruct Hx as [-> | Hx], Hy as [-> | Hy]; auto.
  - exfalso. apply Hz. rewrite Hk. apply list_elem_of_In. now apply in_map.
  - exfalso. apply Hz. rewrite <- Hk. apply list_elem_of_In. now apply in_map.
Qed.

Lemma In_replace_first {A} (f : A -> bool) (m : A) (l : list A) (x : A) :
  In x (replace_first f m l) -> x = m \/ In x l.
Proof.
  induction l as [|y l IH]; [contradiction |].
  cbn. destruct (f y).
  - intros [<- | Hin]; [now left | right; now right].
  - intros [-> | Hin]; [right; now left |].
    destruct (IH Hin); [now left | right; now right].
Qed.

(** X17.  No request changes the creation time or the owner of a
    stored posting: a posting of the store after a request that has the
    [_id] of a posting of the store before it has its [createdAt] and
    its [userName] too. *)
Theorem posting_identity_stable
    (r : route) (req : request) (s : state) (p p' : Posting.t) :
  ids_unique s ->
  In p (postings s) ->
  In p' (postings (serve lib r req s)) ->
  Posting._id p' = Posting._id p ->
  Posting.createdAt p' = Posting.createdAt p /\
  Posting.userName p' = Posting.userName p.
Proof.
  intros [[Hnd _] _] Hp Hp' Hid.
  assert (Hsame : In p' (postings s) -> p' = p)
    by (intros Hin; exact (keyed_inj Posting._id (postings s) p' p Hnd Hin Hp Hid)).
  revert Hp'. destruct r; run_handler; cbn.
  all: repeat (case_match; cbn in *; simplify_eq); intros Hp'.
  all: try (rewrite (Hsame Hp'); split; reflexivity).
  all: try (apply In_remove_first in Hp'; rewrite (Hsame Hp'); split; reflexivity).
  all: try (apply in_app_iff in Hp' as [Hp' | [<- | []]];
            [rewrite (Hsame Hp'); split; reflexivity |];
            exfalso; cbn in Hid;
            match goal with
            | Hf : existsb (posting_id_is _) _ = false |- _ =>
                assert (Hex : existsb (posting_id_is (Posting._id p)) (postings s) = true)
                  by (apply existsb_exists; exists p; split;
                      [assumption | apply String.eqb_refl]);
                rewrite <- Hid in Hex; rewrite Hf in Hex; discriminate Hex
            end).
  all: apply In_replace_first in Hp' as [-> | Hp'];
    [| rewrite (Hsame Hp'); split; reflexivity].
  all: cbn in Hid |- *.
  all: match goal with
       | Hf : List.find (posting_matches _ _) _ = Some ?t |- _ =>
           apply matched_posting in Hf as (Hin & _ & _);
           rewrite (keyed_inj Posting._id (postings s) t p Hnd Hin Hp Hid);
           split; reflexivity
       end.
Qed.

(** X18.  The same for contacts: no request changes the owner of a
    stored contact. *)
Theorem contact_owner_stable
    (r : route) (req : request) (s : state) (c c' : Contact.t) :
  ids_unique s ->
  In c (contacts s) ->
  In c' (contacts (serve lib r req s)) ->
  Contact._id c' = Contact._id c ->
  Contact.userName c' = Contact.userName c.
Proof.
  intros [_ [Hnd _]] Hc Hc' Hid.
  assert (Hsame : In c' (contacts s) -> c' = c)
    by (intros Hin; exact (keyed_inj Contact._id (contacts s) c' c Hnd Hin Hc Hid)).
  revert Hc'. destruct r; run_handler; cbn.
  all: repeat (case_match; cbn in *; simplify_eq); intros Hc'.
  all: try (now rewrite (Hsame Hc')).
  all: try (apply In_remove_first in Hc'; now rewrite (Hsame Hc')).
  all: try (apply in_app_iff in Hc' as [Hc' | [<- | []]];
            [now rewrite (Hsame Hc') |];
            exfalso; cbn in Hid;
            match goal with
            | Hf : existsb (contact_id_is _) _ = false |- _ =>
                assert (Hex : existsb (contact_id_is (Contact._id c)) (contacts s) = true)
                  by (apply existsb_exists; exists c; split;
                      [assumption | apply String.eqb_refl]);
                rewrite <- Hid in Hex; rewrite Hf in Hex; discriminate Hex
            end).
  all: apply In_replace_first in Hc' as [-> | Hc'];
    [| now rewrite (Hsame Hc')].
  all: cbn in Hid |- *.
  all: match goal with
       | Hf : List.find (contact_matches _ _) _ = Some ?t |- _ =>
           apply matched_contact in Hf as (Hin & _ & _);
           now rewrite (keyed_inj Contact._id (contacts s) t c Hnd Hin Hc Hid)
       end.
Qed.

(** ** Creating, then deleting *)

Lemma remove_first_snoc {A} (f : A -> bool) (l : list A) (x : A) :
  existsb f l = false -> f x = true -> remove_first f (l ++ [x]) = l.
Proof.
  induction l as [|y l IH]; cbn.
  - now intros _ ->.
  - destruct (f y); [discriminate |]. intros Hl Hx. now rewrite IH.
Qed.

(** X19.  Deleting the posting that [POST /postings] has just answered
    201 with brings the postings back to what they were before the
    creation; users and contacts were never touched. *)
Theorem posting_create_then_delete
    (req req' : request) (s : state) (u : User.t) (p : Posting.t) :
  authenticated lib req s = Some u ->
  reply (serve lib POST_postings req s) = Some (201%Z, PPosting p) ->
  authorization req' = authorization req ->
  params_id req' = Posting._id p ->
  let s2 := serve lib DELETE_postings_id req' (serve lib POST_postings req s) in
  reply s2 = Some (200%Z, PSuccess) /\
  postings s2 = postings s /\ users s2 = users s /\ contacts s2 = contacts s.
Proof.
  intros Hu Hreply Hauth Hid s2.
  destruct (postings_create_created req s u p Hu Hreply)
    as (Hp & Hstore & Husers & Hcontacts & _ & Hfresh).
  set (s1 := serve lib POST_postings req s) in *.
  assert (Hu1 : authenticated lib req' s1 = Some u)
    by (rewrite (authenticated_same_users req req' s s1 Husers Hauth); exact Hu).
  assert (Hown : Posting.userName p = User.name u) by (rewrite Hp; reflexivity).
  assert (Hnone : existsb (posting_matches (params_id req') (User.name u))
                    (postings s) = false)
    by (rewrite Hid; now apply existsb_andb_false).
  assert (Hmatch : posting_matches (params_id req') (User.name u) p = true).
  { unfold posting_matches, posting_id_is, posting_owner_is.
    now rewrite Hid, Hown, !String.eqb_refl. }
  assert (Hcast : castObjectId (params_id req') = Some (params_id req')).
  { apply castObjectId_canonical. rewrite Hid, Hp. apply objectId_canonical. }
  subst s2. rewrite (serve_authenticated lib DELETE_postings_id req' s1 u eq_refl Hu1).
  run_handler. cbn. rewrite Hcast. cbn. rewrite Hstore.
  rewrite (find_app_None _ _ _ (existsb_false_find _ _ Hnone)).
  rewrite (remove_first_snoc _ _ _ Hnone Hmatch).
  cbn. rewrite Hmatch. cbn. repeat split; assumption.
Qed.

End Further.

(** * The further properties at concrete requests *)

Lemma body_fields_read_witness :
  serve Sample.lib PUT_postings_id
    (with_body (<["userName" := JStr "bob"]> (body Sample.alice_moves_stage))
       Sample.alice_moves_stage)
    Sample.populated
  = serve Sample.lib PUT_postings_id Sample.alice_moves_stage Sample.populated.
Proof.
  apply (body_fields_read Sample.lib PUT_postings_id Sample.alice_moves_stage
           Sample.populated "userName" (JStr "bob")).
  cbn. intros [H | [H | [H | []]]]; discriminate H.
Defined.

Lemma read_only_routes_keep_store_witness :
  users (serve Sample.lib POST_users_userName Sample.login_alice Sample.populated)
  = users Sample.populated /\
  counters (serve Sample.lib POST_users_userName Sample.login_alice Sample.populated)
  = counters Sample.populated.
Proof.
  destruct (read_only_routes_keep_store Sample.lib POST_users_userName
              Sample.login_alice Sample.populated eq_refl)
    as (Hu & _ & _ & Hc).
  split; assumption.
Defined.

Lemma postings_list_mine_witness :
  reply (serve Sample.lib GET_postings_user Sample.alice_reads_posting Sample.populated)
  = Some (200%Z, PPostings [Sample.the_posting]) /\
  reply (serve Sample.lib GET_postings_user Cases.bob_lists Sample.populated)
  = Some (200%Z, PPostings []).
Proof.
  split.
  - destruct (postings_list_mine Sample.lib Sample.alice_reads_posting
                Sample.populated Sample.alice ltac:(vm_compute; reflexivity))
      as (Hreply & _).
    rewrite Hreply. vm_compute. reflexivity.
  - destruct (postings_list_mine Sample.lib Cases.bob_lists
                Sample.populated Sample.bob ltac:(vm_compute; reflexivity))
      as (Hreply & _).
    rewrite Hreply. vm_compute. reflexivity.
Defined.

Lemma contacts_list_mine_witness :
  reply (serve Sample.lib GET_contacts Sample.alice_reads_posting Sample.populated)
  = Some (200%Z, PContacts [Sample.the_contact]) /\
  reply (serve Sample.lib GET_contacts Cases.bob_lists Sample.populated)
  = Some (200%Z, PContacts []).
Proof.
  split.
  - destruct (contacts_list_mine Sample.lib Sample.alice_reads_posting
                Sample.populated Sample.alice ltac:(vm_compute; reflexivity))
      as (Hreply & _).
    rewrite Hreply. vm_compute. reflexivity.
  - destruct (contacts_list_mine Sample.lib Cases.bob_lists
                Sample.populated Sample.bob ltac:(vm_compute; reflexivity))
      as (Hreply & _).
    rewrite Hreply. vm_compute. reflexivity.
Defined.

Lemma create_rejects_missing_field_witness :
  reply (serve Sample.lib POST_postings Cases.alice_posts_no_company Sample.populated)
  = Some (400%Z, PError "Could not create posting. Job title or company missing") /\
  postings (serve Sample.lib POST_postings Cases.alice_posts_no_company Sample.populated)
  = postings Sample.populated.
Proof.
  destruct (create_rejects_missing_field Sample.lib POST_postings
              Cases.alice_posts_no_company Sample.populated Sample.alice
              (or_introl eq_refl) ltac:(vm_compute; reflexivity))
    as (Hmissing & _).
  destruct Hmissing as (Hreply & _ & Hpostings & _).
  - exists "company". split; [cbn; auto | vm_compute; reflexivity].
  - split; assumption.
Defined.

Lemma users_create_rejects_missing_field_witness :
  reply (serve Sample.lib POST_users Cases.signup_no_email Sample.populated)
  = Some (400%Z, PError "Could not create user. User, email or password missing") /\
  trace (serve Sample.lib POST_users Cases.signup_no_email Sample.populated) = [].
Proof.
  destruct (users_create_rejects_missing_field Sample.lib Cases.signup_no_email
              Sample.populated "email" ltac:(cbn; auto)
              ltac:(vm_compute; reflexivity))
    as (Hreply & _ & _ & _ & _ & Htrace).
  split; assumption.
Defined.

Lemma posting_create_then_read_witness :
  reply (serve Sample.lib GET_postings_id Sample.alice_reads_posting Cases.with_posting)
  = Some (200%Z, PPosting Sample.the_posting) /\
  Posting.stage Sample.the_posting = "applied".
Proof.
  destruct (posting_create_then_read Sample.lib Sample.alice_posts
              Sample.alice_reads_posting Sample.two_users Sample.alice
              Sample.the_posting
              ltac:(vm_compute; reflexivity) ltac:(vm_compute; reflexivity)
              eq_refl ltac:(vm_compute; reflexivity))
    as (Hget & _ & Hstage).
  split; assumption.
Defined.

Lemma contact_created_notes_witness :
  field (body Sample.alice_adds_contact) "notes" = JUndefined /\
  Contact.notes Sample.the_contact = Some "".
Proof.
  destruct (contact_created_notes Sample.lib Sample.alice_adds_contact
              Cases.with_posting Sample.alice Sample.the_contact
              ltac:(vm_compute; reflexivity) ltac:(vm_compute; reflexivity))
    as (Hdefault & _).
  split; [vm_compute; reflexivity |].
  apply Hdefault. vm_compute. reflexivity.
Defined.

Lemma posting_delete_removes_witness :
  reply (serve Sample.lib DELETE_postings_id Sample.alice_reads_posting Sample.populated)
  = Some (200%Z, PSuccess) /\
  reply (serve Sample.lib GET_postings_id Sample.alice_reads_posting
           (serve Sample.lib DELETE_postings_id Sample.alice_reads_posting
              Sample.populated))
  = Some (not_found GET_postings_id).
Proof.
  destruct (posting_delete_removes Sample.lib Sample.alice_reads_posting
              Sample.populated Sample.alice Sample.the_posting
              ltac:(vm_compute; reflexivity) sample_populated_unique
              ltac:(vm_compute; reflexivity))
    as (Hreply & _ & _ & _ & _ & _ & Hgone).
  split; [exact Hreply |].
  exact (Hgone GET_postings_id eq_refl eq_refl).
Defined.

Lemma contact_delete_removes_witness :
  reply (serve Sample.lib DELETE_contacts_id Cases.alice_on_contact Sample.populated)
  = Some (200%Z, PSuccess) /\
  reply (serve Sample.lib PUT_contacts_id Cases.alice_on_contact
           (serve Sample.lib DELETE_contacts_id Cases.alice_on_contact
              Sample.populated))
  = Some (not_found PUT_contacts_id).
Proof.
  destruct (contact_delete_removes Sample.lib Cases.alice_on_contact
              Sample.populated Sample.alice Sample.the_contact
              ltac:(vm_compute; reflexivity) sample_populated_unique
              ltac:(vm_compute; reflexivity))
    as (Hreply & _ & _ & _ & _ & _ & Hgone).
  split; [exact Hreply |].
  exact (Hgone PUT_contacts_id eq_refl eq_refl).
Defined.

Lemma update_without_fields_witness :
  reply (serve Sample.lib PUT_postings_id Sample.alice_reads_posting Sample.populated)
  = Some (200%Z, PPosting Sample.the_posting) /\
  reply (serve Sample.lib PUT_contacts_id Cases.alice_on_contact Sample.populated)
  = Some (200%Z, PContact Sample.the_contact).
Proof.
  split.
  - destruct (update_without_fields Sample.lib Sample.alice_reads_posting
                Sample.populated Sample.alice
                ltac:(vm_compute; reflexivity) sample_populated_unique)
      as (Hposting & _).
    apply (Hposting Sample.the_posting); vm_compute; reflexivity.
  - destruct (update_without_fields Sample.lib Cases.alice_on_contact
                Sample.populated Sample.alice
                ltac:(vm_compute; reflexivity) sample_populated_unique)
      as (_ & Hcontact).
    apply (Hcontact Sample.the_contact); vm_compute; reflexivity.
Defined.

Lemma posting_update_twice_witness :
  let s1 := serve Sample.lib PUT_postings_id Sample.alice_moves_stage
              Sample.populated in
  let m := spec_merge_posting Sample.alice_moves_stage (Sample.clock 2)
             Sample.the_posting in
  reply s1 = Some (200%Z, PPosting m) /\
  reply (serve Sample.lib PUT_postings_id Sample.alice_moves_stage s1)
  = Some (200%Z, PPosting m) /\
  Posting.lastStageChange m = Sample.clock 2.
Proof.
  intros s1 m.
  assert (Hreply : reply s1 = Some (200%Z, PPosting m))
    by (vm_compute; reflexivity).
  destruct (posting_update_twice Sample.lib Sample.alice_moves_stage
              Sample.populated Sample.alice Sample.the_posting m
              ltac:(vm_compute; reflexivity) sample_populated_unique
              ltac:(vm_compute; reflexivity)
              ltac:(right; exists "interview"; vm_compute; reflexivity) Hreply)
    as (Hagain & _).
  split; [exact Hreply |]. split; [exact Hagain | vm_compute; reflexivity].
Defined.

(** The stage of X13 has to be a string: sent as an object that is cast
    to [interview], it is never the stored stage, and each of the two
    updates moves [lastStageChange]. *)
Example stage_document_moves_twice :
  List.map replied_lastStageChange
    (replies Sample.lib
       [(PUT_postings_id, Cases.alice_moves_stage_doc);
        (PUT_postings_id, Cases.alice_moves_stage_doc)]
       Sample.populated)
  = [Some (Sample.clock 2); Some (Sample.clock 3)].
Proof. vm_compute. reflexivity. Qed.


Lemma cases_bcrypt_sound : bcrypt_sound Cases.lib.
Proof.
  intros s salt hash H. destruct s; try discriminate H.
  cbn in *. injection H as <-. now rewrite String.eqb_refl.
Qed.

Lemma signup_then_login_witness :
  reply (serve Cases.lib POST_users_userName Sample.login_alice
           (serve_all Cases.lib [(POST_users, Sample.signup_bob)]
              (serve Cases.lib POST_users Sample.signup_alice Sample.empty)))
  = Some (200%Z, PLogin "alice" (User.accessToken Cases.alice)).
Proof.
  rewrite (signup_then_login Cases.lib Sample.signup_alice Sample.login_alice
             Sample.empty Cases.alice [(POST_users, Sample.signup_bob)]
             cases_bcrypt_sound ltac:(vm_compute; reflexivity)
             ltac:(vm_compute; reflexivity) ltac:(vm_compute; reflexivity)).
  vm_compute. reflexivity.
Defined.

Lemma posting_identity_stable_witness :
  let q := spec_merge_posting Sample.alice_moves_stage (Sample.clock 2)
             Sample.the_posting in
  In q (postings (serve Sample.lib PUT_postings_id Sample.alice_moves_stage
                    Sample.populated)) /\
  Posting.createdAt q = Posting.createdAt Sample.the_posting /\
  Posting.userName q = Posting.userName Sample.the_posting.
Proof.
  intros q.
  assert (Hin : In q (postings (serve Sample.lib PUT_postings_id
                                  Sample.alice_moves_stage Sample.populated)))
    by (vm_compute; left; reflexivity).
  split; [exact Hin |].
  apply (posting_identity_stable Sample.lib PUT_postings_id
           Sample.alice_moves_stage Sample.populated Sample.the_posting q
           sample_populated_unique).
  - vm_compute. left. reflexivity.
  - exact Hin.
  - vm_compute. reflexivity.
Defined.

Lemma contact_owner_stable_witness :
  let c' := spec_merge_contact Sample.alice_edits_contact Sample.the_contact in
  In c' (contacts (serve Sample.lib PUT_contacts_id Sample.alice_edits_contact
                     Sample.populated)) /\
  Contact.notes c' = Some "met at the fair" /\
  Contact.userName c' = Contact.userName Sample.the_contact.
Proof.
  intros c'.
  assert (Hin : In c' (contacts (serve Sample.lib PUT_contacts_id
                                   Sample.alice_edits_contact Sample.populated)))
    by (vm_compute; left; reflexivity).
  split; [exact Hin |]. split; [vm_compute; reflexivity |].
  apply (contact_owner_stable Sample.lib PUT_contacts_id
           Sample.alice_edits_contact Sample.populated Sample.the_contact c'
           sample_populated_unique).
  - vm_compute. left. reflexivity.
  - exact Hin.
  - vm_compute. reflexivity.
Defined.

Lemma posting_create_then_delete_witness :
  reply (serve Sample.lib DELETE_postings_id Sample.alice_reads_posting
           (serve Sample.lib POST_postings Sample.alice_posts Sample.two_users))
  = Some (200%Z, PSuccess) /\
  postings (serve Sample.lib DELETE_postings_id Sample.alice_reads_posting
              (serve Sample.lib POST_postings Sample.alice_posts Sample.two_users))
  = postings Sample.two_users.
Proof.
  destruct (posting_create_then_delete Sample.lib Sample.alice_posts
              Sample.alice_reads_posting Sample.two_users Sample.alice
              Sample.the_posting
              ltac:(vm_compute; reflexivity) ltac:(vm_compute; reflexivity)
              eq_refl ltac:(vm_compute; reflexivity))
    as (Hreply & Hpostings & _).
  split; assumption.
Defined.
